(** * IdentifyPrimaryObjects: a shallow embedding of the segmentation core

    The development follows
    [pyCellProfiler/cellprofiler/modules/identifyprimaryobjects.py].

    - numpy arrays of rank two are lists of rows ([grid]);
    - intensities, thresholds and sizes are exact rationals ([Q]): a decimal
      literal of the source denotes its decimal value, [np.pi] denotes the
      value of the binary64 constant, and rounding is not part of the model;
    - label maps hold integers ([Z]), markers are 16-bit integers with their
      wrap-around written out;
    - Python exceptions are the [Raise] results of an error monad, and the
      calls made to the numerical collaborators are recorded in a call log;
    - scipy and cpmath routines that the module calls are either modelled
      (connected components, maximum filter, erosion, convolution) or taken
      from the [Kernels] interface. *)

From Stdlib Require Import String.
From Stdlib Require Import List ZArith QArith Qround Bool Lia Lqa.
From Stdlib Require Reals Lra.
Import ListNotations.

Local Open Scope Z_scope.

(** ** Arrays *)

Module NumPy.

Definition grid (A : Type) := list (list A).

Definition gmap {A B : Type} (f : A -> B) (g : grid A) : grid B :=
  map (map f) g.

Fixpoint zip_with {A B C : Type} (f : A -> B -> C)
         (xs : list A) (ys : list B) : list C :=
  match xs, ys with
  | x :: xs', y :: ys' => f x y :: zip_with f xs' ys'
  | _, _ => []
  end.

(** Element-wise binary operations.  numpy requires equal shapes (the data
    model guarantees them); on unequal shapes the model keeps the common
    part. *)
Definition gmap2 {A B C : Type} (f : A -> B -> C)
           (a : grid A) (b : grid B) : grid C :=
  zip_with (zip_with f) a b.

Definition pixel {A : Type} (g : grid A) (r c : nat) : option A :=
  match nth_error g r with
  | Some row => nth_error row c
  | None => None
  end.

(** [a.shape] *)
Definition shape {A : Type} (g : grid A) : nat * nat :=
  (length g, length (hd [] g)).

(** An array given by its shape and its entries. *)
Definition tabulate {A : Type} (nr nc : nat) (f : nat -> nat -> A) : grid A :=
  map (fun r => map (fun c => f r c) (seq 0 nc)) (seq 0 nr).

(** [a[m] = v] for a boolean array [m]. *)
Definition set_where {A : Type} (a : grid A) (m : grid bool) (v : A) : grid A :=
  gmap2 (fun x (b : bool) => if b then v else x) a m.

(** [a[m]] for a boolean array [m]: the selected entries in raster order. *)
Definition select_where {A : Type} (a : grid A) (m : grid bool) : list A :=
  concat (zip_with
            (fun row mrow =>
               map fst (filter (fun xb : A * bool => snd xb) (combine row mrow)))
            a m).

(** [a.flatten()] *)
Definition flatten {A : Type} (g : grid A) : list A := concat g.

(** [table[i]] for one integer index: negative indices count from the end,
    anything outside [-len, len) is an [IndexError] ([None]). *)
Definition np_index {A : Type} (table : list A) (i : Z) : option A :=
  let n := Z.of_nat (length table) in
  if (0 <=? i) && (i <? n) then nth_error table (Z.to_nat i)
  else if (- n <=? i) && (i <? 0) then nth_error table (Z.to_nat (i + n))
  else None.

Fixpoint traverse {A B : Type} (f : A -> option B) (xs : list A)
  : option (list B) :=
  match xs with
  | [] => Some []
  | x :: xs' =>
      match f x, traverse f xs' with
      | Some y, Some ys => Some (y :: ys)
      | _, _ => None
      end
  end.

(** [table[idx]] for an integer array [idx] (fancy indexing). *)
Definition np_take {A : Type} (table : list A) (idx : grid Z)
  : option (grid A) :=
  traverse (traverse (np_index table)) idx.

(** [np.max(a)] of an integer array; [None] on an empty one (ValueError). *)
Definition np_max (g : grid Z) : option Z :=
  match flatten g with
  | [] => None
  | x :: xs => Some (fold_left Z.max xs x)
  end.

(** [np.arange(lo, hi)] on integers. *)
Definition arange (lo hi : Z) : list Z :=
  map (fun k => lo + Z.of_nat k) (seq 0 (Z.to_nat (hi - lo))).

(** Number of entries of [xs] equal to [k]. *)
Definition count_eq (k : Z) (xs : list Z) : Z :=
  Z.of_nat (length (filter (Z.eqb k) xs)).

(** Comparisons on intensities. *)
Definition Qltb (x y : Q) : bool := negb (Qle_bool y x).

(** [int(x)]: truncation toward zero. *)
Definition Qtrunc (x : Q) : Z := Z.quot (Qnum x) (Zpos (Qden x)).

(** The value of the binary64 constant [np.pi]. *)
Definition np_pi : Q := 884279719003555 # 281474976710656.

Definition Qsum (xs : list Q) : Q := fold_left Qplus xs 0%Q.

(** Entry of an array at integer coordinates, [d] outside it. *)
Definition at_or {A : Type} (d : A) (g : grid A) (r c : Z) : A :=
  if (r <? 0) || (c <? 0) then d
  else match pixel g (Z.to_nat r) (Z.to_nat c) with
       | Some x => x
       | None => d
       end.

End NumPy.
Export NumPy.

(** ** Exceptions and the call log *)

Inductive exn : Type :=
| IndexError
| ValueError (msg : string)
| NotImplementedError (msg : string)
| NameError (name : string)
| ZeroDivisionError.

Inductive result (A : Type) : Type :=
| Ok (a : A)
| Raise (e : exn).
Arguments Ok {A} a.
Arguments Raise {A} e.

(** The numerical stages that lines 618-655 of [run] and the functions
    they call can invoke: [smooth_image], the Laplacian of Gaussian, the
    distance transform, [get_maxima], [scipy.ndimage.label], the watershed,
    the erosion of the mask, [fill_labeled_holes], [relabel] and [outline].
    The thresholds are computed before line 618 and are inputs of the
    model. *)
Inductive call : Type :=
| CallSmooth
| CallLoG
| CallDistanceTransform
| CallGetMaxima
| CallLabel
| CallWatershed
| CallErodeMask
| CallFillHoles
| CallRelabel
| CallOutline.

(** A computation returns a result or raises, and logs the stages it ran. *)
Definition M (A : Type) : Type := (list call * result A)%type.

Definition ret {A : Type} (a : A) : M A := ([], Ok a).

Definition raise {A : Type} (e : exn) : M A := ([], Raise e).

Definition bind {A B : Type} (m : M A) (f : A -> M B) : M B :=
  match m with
  | (l1, Ok a) => let (l2, r) := f a in (l1 ++ l2, r)
  | (l1, Raise e) => (l1, Raise e)
  end.

Definition running {A : Type} (c : call) (a : A) : M A := ([c], Ok a).

(** A partial array operation, raising [e] where it is undefined. *)
Definition of_option {A : Type} (e : exn) (o : option A) : M A :=
  match o with
  | Some a => ret a
  | None => raise e
  end.

Declare Scope monad_scope.
Delimit Scope monad_scope with monad.
Notation "x <- m ;; k" := (bind m (fun x => k))
  (at level 61, m at next level, right associativity) : monad_scope.
Notation "' pat <- m ;; k" := (bind m (fun x => match x with pat => k end))
  (at level 61, pat pattern, m at next level, right associativity) : monad_scope.

Definition logged {A : Type} (m : M A) : list call := fst m.
Definition outcome {A : Type} (m : M A) : result A := snd m.

(** ** Settings *)

Definition UN_INTENSITY : string := "Intensity".
Definition UN_SHAPE : string := "Shape".
Definition UN_LOG : string := "Laplacian of Gaussian".
Definition UN_NONE : string := "None".
Definition WA_INTENSITY : string := "Intensity".
Definition WA_DISTANCE : string := "Distance".
Definition WA_NONE : string := "None".

(** The values of the module's settings that the segmentation reads.
    [size_range], [smoothing_filter_size] and [maxima_suppression_size] are
    integer settings; the two mode settings are strings. *)
Record settings : Type := {
  size_range_min : Z;
  size_range_max : Z;
  exclude_size : bool;
  exclude_border_objects : bool;
  unclump_method : string;
  watershed_method : string;
  automatic_smoothing : bool;
  smoothing_filter_size : Z;
  automatic_suppression : bool;
  maxima_suppression_size : Z;
  low_res_maxima : bool;
  fill_holes : bool;
  wants_automatic_log_threshold : bool;
  manual_log_threshold : Q;
  wants_automatic_log_diameter : bool;
  log_diameter : Q
}.

(** Arrays of floats, of integers and of booleans. *)
Definition farray := grid Q.
Definition iarray := grid Z.
Definition barray := grid bool.

(** [cpimage.Image]: pixel data, the validity mask (all true when the image
    has none) and whether a mask was supplied. *)
Record cpimage : Type := {
  pixel_data : farray;
  mask : barray;
  has_mask : bool
}.

(** ** scipy.ndimage routines used by the module *)

Module SciPy.

Definition coord : Type := (Z * Z)%type.

Definition enumerate {A : Type} (xs : list A) : list (Z * A) :=
  combine (arange 0 (Z.of_nat (length xs))) xs.

(** Coordinates of the true entries, in raster order. *)
Definition where_true (b : barray) : list coord :=
  concat (map (fun rrow : Z * list bool =>
                 map (fun cb : Z * bool => (fst rrow, fst cb))
                     (filter (fun cb : Z * bool => snd cb)
                             (enumerate (snd rrow))))
              (enumerate b)).

Definition coord_eqb (p q : coord) : bool :=
  (fst p =? fst q) && (snd p =? snd q).

Definition mem_coord (p : coord) (ps : list coord) : bool :=
  existsb (coord_eqb p) ps.

(** Neighbours under the structuring element [np.ones((3,3))]. *)
Definition adjacent8 (p q : coord) : bool :=
  (Z.abs (fst p - fst q) <=? 1) && (Z.abs (snd p - snd q) <=? 1).

(** Neighbours under the cross-shaped default structuring element. *)
Definition adjacent4 (p q : coord) : bool :=
  Z.abs (fst p - fst q) + Z.abs (snd p - snd q) =? 1.

(** Absorb into [comp] the points of [rest] that are connected to it. *)
Fixpoint grow (fuel : nat) (adj : coord -> coord -> bool)
         (comp rest : list coord) : list coord * list coord :=
  match fuel with
  | O => (comp, rest)
  | S fuel' =>
      match partition (fun q => existsb (adj q) comp) rest with
      | ([], _) => (comp, rest)
      | (near, far) => grow fuel' adj (comp ++ near) far
      end
  end.

(** Connected components of a point set, each started at its first point in
    raster order. *)
Fixpoint components_from (fuel : nat) (adj : coord -> coord -> bool)
         (pts : list coord) : list (list coord) :=
  match fuel with
  | O => []
  | S fuel' =>
      match pts with
      | [] => []
      | p :: rest =>
          let (comp, rest') := grow (length rest) adj [p] rest in
          comp :: components_from fuel' adj rest'
      end
  end.

Definition components (adj : coord -> coord -> bool) (b : barray)
  : list (list coord) :=
  let pts := where_true b in components_from (length pts) adj pts.

(** One-based position of the component holding [p], 0 when there is none. *)
Fixpoint component_index (p : coord) (comps : list (list coord)) : Z :=
  match comps with
  | [] => 0
  | comp :: comps' =>
      if mem_coord p comp then 1
      else match component_index p comps' with
           | 0 => 0
           | k => k + 1
           end
  end.

(** [scipy.ndimage.label(b, np.ones((3,3),bool))]: the 8-connected components
    numbered in raster order of their first pixel, and their number. *)
Definition label (b : barray) : iarray * Z :=
  let comps := components adjacent8 b in
  (tabulate (fst (shape b)) (snd (shape b))
            (fun r c => if at_or false b (Z.of_nat r) (Z.of_nat c)
                        then component_index (Z.of_nat r, Z.of_nat c) comps
                        else 0),
   Z.of_nat (length comps)).

(** [scipy.ndimage.measurements.sum(np.ones(shape), lab, range(0, n+1))]:
    the pixel count of every label from 0 to [n]. *)
Definition label_areas (lab : iarray) (n : Z) : list Z :=
  map (fun k => count_eq k (flatten lab)) (arange 0 (n + 1)).

(** [scipy.ndimage.histogram(lab, 1, n+1, n)]: [n] unit bins starting at 1. *)
Definition label_histogram (lab : iarray) (n : Z) : list Z :=
  map (fun k => count_eq k (flatten lab)) (arange 1 (n + 1)).

(** [coo_matrix((ones, (rows, zeros)), shape=(n, 1)).todense()] flattened:
    entry [k] counts the occurrences of [k] among [rows]; a negative row
    index is refused. *)
Definition coo_histogram (rows : list Z) (n : Z) : option (list Z) :=
  if existsb (fun k => (k <? 0) || (n <=? k)) rows then None
  else Some (map (fun k => count_eq k rows) (arange 0 n)).

(** [scipy.ndimage.convolve1d(a, w, axis, mode='constant')]: entries outside
    the array count as 0. *)
Definition conv_at (w : list Q) (entry : Z -> Q) (i : Z) : Q :=
  let h := Z.of_nat (length w) / 2 in
  Qsum (map (fun jw : Z * Q => Qmult (snd jw) (entry (i + h - fst jw)))
            (enumerate w)).

Definition convolve1d_axis0 (a : farray) (w : list Q) : farray :=
  tabulate (fst (shape a)) (snd (shape a))
           (fun r c => conv_at w (fun i => at_or 0%Q a i (Z.of_nat c))
                               (Z.of_nat r)).

Definition convolve1d_axis1 (a : farray) (w : list Q) : farray :=
  tabulate (fst (shape a)) (snd (shape a))
           (fun r c => conv_at w (fun j => at_or 0%Q a (Z.of_nat r) j)
                               (Z.of_nat c)).

(** Index reflection of the default boundary mode [(d c b a | a b c d | d c b a)]. *)
Definition reflect (n i : Z) : Z :=
  let m := i mod (2 * n) in if m <? n then m else 2 * n - 1 - m.

(** Offsets of the true entries of a footprint from its centre. *)
Definition footprint_offsets (fp : barray) : list coord :=
  let h0 := Z.of_nat (fst (shape fp)) / 2 in
  let h1 := Z.of_nat (snd (shape fp)) / 2 in
  map (fun p : coord => (fst p - h0, snd p - h1)) (where_true fp).

Definition Qmax (x y : Q) : Q := if Qle_bool x y then y else x.

(** [scipy.ndimage.maximum_filter(a, footprint=fp)].  The footprints built by
    [strel_disk] contain their centre; on an empty footprint the entry itself
    is returned. *)
Definition maximum_filter (a : farray) (fp : barray) : farray :=
  let nr := Z.of_nat (fst (shape a)) in
  let nc := Z.of_nat (snd (shape a)) in
  let offs := footprint_offsets fp in
  tabulate (fst (shape a)) (snd (shape a))
           (fun r c =>
              let here := at_or 0%Q a (Z.of_nat r) (Z.of_nat c) in
              match map (fun d : coord =>
                           at_or 0%Q a (reflect nr (Z.of_nat r + fst d))
                                 (reflect nc (Z.of_nat c + snd d))) offs with
              | [] => here
              | v :: vs => fold_left Qmax vs v
              end).

(** [scipy.ndimage.binary_erosion(b)]: cross-shaped structuring element,
    entries outside the array count as false. *)
Definition binary_erosion (b : barray) : barray :=
  tabulate (fst (shape b)) (snd (shape b))
           (fun r c =>
              let i := Z.of_nat r in
              let j := Z.of_nat c in
              at_or false b i j && at_or false b (i - 1) j
              && at_or false b (i + 1) j && at_or false b i (j - 1)
              && at_or false b i (j + 1)).

End SciPy.
Export SciPy.

(** ** cellprofiler.cpmath routines

    [cpmorphology] is not among the available sources; the four routines the
    statements below depend on are modelled from the specification. *)

Module CpMath.

(** Modelled from the spec: [cpmorphology.strel_disk] is missing; the
    footprint is "a disk of radius [suppression_size - 0.5]", i.e. the
    offsets [(x, y)] with [|x|, |y| <= int(radius)] and
    [x*x + y*y <= radius*radius]. *)
Definition strel_disk (radius : Q) : barray :=
  let iradius := Qtrunc radius in
  let axis := arange (- iradius) (iradius + 1) in
  map (fun x => map (fun y => Qle_bool (inject_Z (x * x + y * y))
                                       (radius * radius)) axis) axis.

(** Modelled from the spec: [cpmorphology.binary_shrink] is missing;
    "clusters of touching maxima pixels (plateaus) are eroded down to a
    single representative pixel".  The representative kept here is the first
    pixel of the cluster in raster order. *)
Definition binary_shrink (b : barray) : barray :=
  let reps := map (fun comp : list coord => hd (0, 0) comp)
                  (components adjacent8 b) in
  tabulate (fst (shape b)) (snd (shape b))
           (fun r c => mem_coord (Z.of_nat r, Z.of_nat c) reps).

Fixpoint insert_label (l : Z) (ls : list Z) : list Z :=
  match ls with
  | [] => [l]
  | x :: xs =>
      if l <? x then l :: ls
      else if l =? x then ls
      else x :: insert_label l xs
  end.

(** The distinct nonzero labels of a map, in increasing order. *)
Definition unique_labels (lab : iarray) : list Z :=
  fold_right insert_label []
             (filter (fun l => negb (l =? 0)) (flatten lab)).

Fixpoint rank_of (l : Z) (ls : list Z) : Z :=
  match ls with
  | [] => 0
  | x :: xs =>
      if l =? x then 1
      else match rank_of l xs with
           | 0 => 0
           | k => k + 1
           end
  end.

(** Modelled from the spec: [cpmorphology.relabel] is missing; it must
    "compact the surviving label ids to a contiguous range starting at 1" and
    "update [object_count] to the number of surviving objects".  The
    compaction here keeps the order of the labels. *)
Definition relabel (lab : iarray) : iarray * Z :=
  let uniq := unique_labels lab in
  (gmap (fun l => if l =? 0 then 0 else rank_of l uniq) lab,
   Z.of_nat (length uniq)).

Definition touches_edge (nr nc : Z) (comp : list coord) : bool :=
  existsb (fun p : coord =>
             (fst p =? 0) || (fst p =? nr - 1)
             || (snd p =? 0) || (snd p =? nc - 1)) comp.

(** The labels of the objects that touch a background region. *)
Definition bordering_labels (lab : iarray) (comp : list coord) : list Z :=
  filter (fun l => negb (l =? 0))
         (flat_map (fun p : coord =>
                      map (fun d : coord =>
                             at_or 0 lab (fst p + fst d) (snd p + snd d))
                          [(-1, -1); (-1, 0); (-1, 1); (0, -1);
                           (0, 1); (1, -1); (1, 0); (1, 1)])
                   comp).

(** The label that fills a background region, 0 when it stays background. *)
Definition hole_owner (lab : iarray) (comp : list coord) : Z :=
  let nr := Z.of_nat (fst (shape lab)) in
  let nc := Z.of_nat (snd (shape lab)) in
  if touches_edge nr nc comp then 0
  else match bordering_labels lab comp with
       | [] => 0
       | l :: ls => if forallb (Z.eqb l) ls then l else 0
       end.

(** Modelled from the spec: [cpmorphology.fill_labeled_holes] is missing;
    "any background-labeled region fully enclosed by a single object's
    foreground is reassigned to that object's label".  Background regions are
    the 4-connected components of the zero pixels. *)
Definition fill_labeled_holes (lab : iarray) : iarray :=
  let holes := components adjacent4 (gmap (Z.eqb 0) lab) in
  tabulate (fst (shape lab)) (snd (shape lab))
           (fun r c =>
              let l := at_or 0 lab (Z.of_nat r) (Z.of_nat c) in
              if negb (l =? 0) then l
              else match find (mem_coord (Z.of_nat r, Z.of_nat c)) holes with
                   | Some comp => hole_owner lab comp
                   | None => 0
                   end).

End CpMath.
Export CpMath.

(** ** The numerical collaborators

    Routines of numpy, scipy and [cellprofiler.cpmath] that are left
    abstract.  [np_exp] and [np_sqrt] return floating-point
    numbers, hence rationals. *)
Record Kernels : Type := {
  np_exp : Q -> Q;
  np_sqrt : Q -> Q;
  (** [scipy.ndimage.map_coordinates(a, i_j)] *)
  map_coordinates : farray -> grid (Q * Q) -> farray;
  (** [scipy.ndimage.distance_transform_edt] *)
  distance_transform_edt : barray -> farray;
  (** [np.random.seed(0); np.random.uniform(lo, hi, shape)] *)
  seeded_uniform : Q -> Q -> nat * nat -> farray;
  (** [cpmath.filter.stretch(a, mask)] *)
  stretch : farray -> barray -> farray;
  (** [cpmath.filter.laplacian_of_gaussian(a, mask, size, sigma)] *)
  laplacian_of_gaussian : farray -> barray -> Z -> Q -> farray;
  (** [cpmath.otsu.otsu(data, min, max, bins)] *)
  otsu : list Q -> Q -> Q -> Z -> Q;
  (** [cpmath.watershed.fast_watershed(a, markers, structure, mask)] *)
  watershed : farray -> grid Z -> barray -> barray -> grid Z;
  (** [cpmath.outline.outline(labels)] *)
  outline : iarray -> iarray
}.

(** ** The module *)

Section IdentifyPrimaryObjects.

Variable K : Kernels.
Variable self : settings.

Local Open Scope monad_scope.

Definition calc_smoothing_filter_size : Q :=
  if automatic_smoothing self
  then (2.35 * inject_Z (size_range_min self) / 3.5)%Q
  else inject_Z (smoothing_filter_size self).

(** The Gaussian of [smooth_image], sampled at [-filter_size .. filter_size]. *)
Definition gaussian_kernel (sigma : Q) (filter_size : Z) : list Q :=
  map (fun k => (1 / np_sqrt K (2.0 * np_pi) / sigma
                 * np_exp K (-0.5 * inject_Z (k * k) / (sigma * sigma)))%Q)
      (arange (- filter_size) (filter_size + 1)).

Definition fgaussian (f : list Q) (a : farray) : farray :=
  convolve1d_axis1 (convolve1d_axis0 a f) f.

Definition smooth_image (image : farray) (mask : barray) (sigma : Q) : farray :=
  let filter_size := calc_smoothing_filter_size in
  if Qeq_bool filter_size 0 then image
  else
    let filter_size := Z.max (Qtrunc (filter_size / 2.0)) 1 in
    let f := gaussian_kernel sigma filter_size in
    let edge_array := fgaussian f (gmap (fun b : bool => if b then 1%Q else 0%Q) mask) in
    let masked_image := set_where image (gmap negb mask) 0%Q in
    gmap2 Qdiv (fgaussian f masked_image) edge_array.

(** [np.mgrid[0:n0, 0:n1].astype(float)] with every coordinate rescaled. *)
Definition mgrid (n0 n1 : nat) (rescale : Q -> Q) : grid (Q * Q) :=
  tabulate n0 n1 (fun r c => (rescale (inject_Z (Z.of_nat r)),
                              rescale (inject_Z (Z.of_nat c)))).

Definition bool_to_float (b : bool) : Q := if b then 1%Q else 0%Q.

(** Local maxima of [image] under the footprint [maxima_mask].  In the
    source [maxima_image] and [resized_image] name the same array, so the
    second assignment reads the array the first one has already changed.
    Images are assumed to have at least one row (the low-resolution path
    divides by the row count). *)
Definition get_maxima (image : farray) (labeled_image : iarray)
           (maxima_mask : barray) (image_resize_factor : Q) : farray :=
  let resized_image :=
    if Qltb image_resize_factor 1 then
      let n0 := Qceiling (inject_Z (Z.of_nat (fst (shape image))) * image_resize_factor) in
      let n1 := Qceiling (inject_Z (Z.of_nat (snd (shape image))) * image_resize_factor) in
      map_coordinates K image
        (mgrid (Z.to_nat n0) (Z.to_nat n1) (fun x => (x / image_resize_factor)%Q))
    else image in
  let maximum_filtered_image := maximum_filter resized_image maxima_mask in
  let maxima_image :=
    set_where resized_image (gmap2 Qltb resized_image maximum_filtered_image) 0%Q in
  let resized_image := maxima_image in
  let maxima_image :=
    set_where maxima_image (gmap (fun x => Qeq_bool x 0) resized_image) 0%Q in
  let binary_maxima_image := gmap (Qltb 0) maxima_image in
  let '(binary_maxima_image, maxima_image) :=
    if Qltb image_resize_factor 1 then
      let inverse_resize_factor :=
        (inject_Z (Z.of_nat (fst (shape image)))
         / inject_Z (Z.of_nat (fst (shape maxima_image))))%Q in
      let i_j := mgrid (fst (shape image)) (snd (shape image))
                       (fun x => (x / inverse_resize_factor)%Q) in
      (gmap (Qltb 0.5)
            (map_coordinates K (gmap bool_to_float binary_maxima_image) i_j),
       map_coordinates K maxima_image i_j)
    else (binary_maxima_image, maxima_image) in
  let shrunk_image := binary_shrink binary_maxima_image in
  let maxima_image := set_where maxima_image (gmap negb shrunk_image) 0%Q in
  set_where maxima_image (gmap (Z.eqb 0) labeled_image) 0%Q.

Definition low_resolution : bool :=
  low_res_maxima self && (10 <? size_range_min self).

Definition image_resize_factor : Q :=
  if low_resolution then (10.0 / inject_Z (size_range_min self))%Q else 1.0%Q.

Definition effective_maxima_suppression_size : Q :=
  if low_resolution then
    if automatic_suppression self then 7%Q
    else (inject_Z (maxima_suppression_size self) * image_resize_factor + 0.5)%Q
  else
    if automatic_suppression self then (inject_Z (size_range_min self) / 1.5)%Q
    else inject_Z (maxima_suppression_size self).


(** Assignment into, and negation of, [np.int16] arrays wraps around. *)
Definition int16 (z : Z) : Z := (z + 32768) mod 65536 - 32768.

(** [np.min(a)] of a float array; [None] on an empty one. *)
Definition np_min (a : farray) : option Q :=
  match flatten a with
  | [] => None
  | x :: xs => Some (fold_left (fun m y => if Qle_bool m y then m else y) xs x)
  end.

(** The Laplacian-of-Gaussian response, thresholded (lines 776-812). *)
Definition log_response (image : farray) (mask : barray) : farray :=
  let diameter :=
    if wants_automatic_log_diameter self
    then inject_Z ((Z.min (size_range_max self)
                          (size_range_min self * size_range_min self)
                    + size_range_min self * 5) / 6)
    else log_diameter self in
  let sigma := (diameter / 2.35)%Q in
  let shrunken := Qltb image_resize_factor 1.0 in
  let '(simage, smask, diameter, sigma) :=
    if shrunken then
      let n0 := Qtrunc (inject_Z (Z.of_nat (fst (shape image))) * image_resize_factor + 1) in
      let n1 := Qtrunc (inject_Z (Z.of_nat (snd (shape image))) * image_resize_factor + 1) in
      let i_j := mgrid (Z.to_nat n0) (Z.to_nat n1)
                       (fun x => (x / image_resize_factor)%Q) in
      (map_coordinates K image i_j,
       gmap (Qltb 0.99) (map_coordinates K (gmap bool_to_float mask) i_j),
       (diameter * image_resize_factor + 1)%Q,
       (sigma * image_resize_factor)%Q)
    else (image, mask, diameter, sigma) in
  let normalized_image := gmap (fun x => (1 - x)%Q) (stretch K simage smask) in
  let log_image :=
    laplacian_of_gaussian K normalized_image smask
                          (Qtrunc (diameter * 3 / 2)) sigma in
  let log_image :=
    if shrunken then
      map_coordinates K log_image
        (mgrid (fst (shape image)) (snd (shape image))
               (fun x => (x * image_resize_factor)%Q))
    else log_image in
  let log_image := stretch K log_image mask in
  let log_threshold :=
    if wants_automatic_log_threshold self
    then otsu K (select_where log_image mask) 0%Q 1%Q 256
    else manual_log_threshold self in
  let log_image :=
    set_where log_image (gmap (fun x => Qltb x log_threshold) log_image)
              log_threshold in
  gmap (fun x => (x - log_threshold)%Q) log_image.

(** The jittered distance transform of the Shape method (lines 824-829). *)
Definition jittered_distance (labeled_image : iarray) : farray :=
  let distance_transformed_image :=
    distance_transform_edt K (gmap (Z.ltb 0) labeled_image) in
  gmap2 Qplus distance_transformed_image
        (seeded_uniform K 0%Q 0.001%Q (shape distance_transformed_image)).

(** Lines 775-835: the maxima image of the selected unclumping method and,
    for the Shape method, the distance transform it computed. *)
Definition find_maxima (image : farray) (mask : barray)
           (labeled_image : iarray) (blurred_image : farray) (threshold : Q)
           (maxima_mask : barray) : M (farray * option farray) :=
  if (unclump_method self =? UN_LOG)%string then
    log_image <- running CallLoG (log_response image mask) ;;
    maxima_image <- running CallGetMaxima
      (get_maxima log_image labeled_image maxima_mask image_resize_factor) ;;
    ret (maxima_image, None)
  else if (unclump_method self =? UN_INTENSITY)%string then
    (* Remove dim maxima *)
    let maxima_image := blurred_image in
    let maxima_image :=
      set_where maxima_image (gmap (fun x => Qltb x threshold) maxima_image) 0%Q in
    maxima_image <- running CallGetMaxima
      (get_maxima blurred_image labeled_image maxima_mask image_resize_factor) ;;
    ret (maxima_image, None)
  else if (unclump_method self =? UN_SHAPE)%string then
    distance_transformed_image <- running CallDistanceTransform
      (jittered_distance labeled_image) ;;
    maxima_image <- running CallGetMaxima
      (get_maxima distance_transformed_image labeled_image maxima_mask
                  image_resize_factor) ;;
    ret (maxima_image, Some distance_transformed_image)
  else
    (* the message is built as ["..." % s(...)] and [s] is not defined *)
    raise (NameError "s").

(** Lines 838-848: the surface the watershed floods. *)
Definition watershed_surface (image : farray) (labeled_image : iarray)
           (distance_transformed_image : option farray) : M farray :=
  if (watershed_method self =? WA_INTENSITY)%string then
    ret (gmap (fun x => (1 - x)%Q) image)
  else if (watershed_method self =? WA_DISTANCE)%string then
    distance_transformed_image <-
      match distance_transformed_image with
      | Some d => ret d
      | None => running CallDistanceTransform
                  (distance_transform_edt K (gmap (Z.ltb 0) labeled_image))
      end ;;
    let watershed_image := gmap Qopp distance_transformed_image in
    lowest <- of_option (ValueError "zero-size array") (np_min watershed_image) ;;
    ret (gmap (fun x => (x - lowest)%Q) watershed_image)
  else
    raise (NotImplementedError
             ("Watershed method " ++ watershed_method self ++ " is not implemented")).

(** Line 758: the standard deviation of the unclumping blur. *)
Definition unclump_sigma : Q := (calc_smoothing_filter_size / 2.35)%Q.

Definition separate_neighboring_objects (image : farray) (mask : barray)
           (labeled_image : iarray) (object_count : Z) (threshold : Q)
  : M (iarray * Z * Q) :=
  if (unclump_method self =? UN_NONE)%string
     || (watershed_method self =? WA_NONE)%string
  then ret (labeled_image, object_count, 7%Q)
  else
    let sigma := unclump_sigma in
    blurred_image <- running CallSmooth (smooth_image image mask sigma) ;;
    let maxima_suppression_size := effective_maxima_suppression_size in
    let maxima_mask := strel_disk (maxima_suppression_size - 0.5) in
    '(maxima_image, distance_transformed_image) <-
      find_maxima image mask labeled_image blurred_image threshold maxima_mask ;;
    watershed_image <-
      watershed_surface image labeled_image distance_transformed_image ;;
    '(labeled_maxima, object_count) <-
      running CallLabel (label (gmap (Qltb 0) maxima_image)) ;;
    let markers :=
      gmap2 (fun (m l : Z) => if 0 <? l then int16 (- l) else m)
            (gmap (fun _ : Q => 0) watershed_image) labeled_maxima in
    watershed_boundaries <- running CallWatershed
      (watershed K watershed_image markers (tabulate 3 3 (fun _ _ => true))
                 (gmap (fun l => negb (l =? 0)) labeled_image)) ;;
    let watershed_boundaries := gmap (fun l => int16 (- l)) watershed_boundaries in
    ret (watershed_boundaries, object_count, maxima_suppression_size).

Definition min_allowed_area : Q :=
  (np_pi * inject_Z (size_range_min self * size_range_min self) / 4)%Q.

Definition max_allowed_area : Q :=
  (np_pi * inject_Z (size_range_max self * size_range_max self) / 4)%Q.

(** Returns the filtered label map and the map with only the small objects
    removed. *)
Definition filter_on_size (labeled_image : iarray) (object_count : Z)
  : M (iarray * iarray) :=
  if exclude_size self && (0 <? object_count) then
    let areas := label_areas labeled_image object_count in
    (* area_image has the area of the object at every pixel within the object *)
    area_image <- of_option IndexError (np_take areas labeled_image) ;;
    let labeled_image :=
      set_where labeled_image
                (gmap (fun a => Qltb (inject_Z a) min_allowed_area) area_image) 0 in
    let small_removed_labels := labeled_image in
    let labeled_image :=
      set_where labeled_image
                (gmap (fun a => Qltb max_allowed_area (inject_Z a)) area_image) 0 in
    ret (labeled_image, small_removed_labels)
  else
    ret (labeled_image, labeled_image).

(** The labels found on row 0, column 0, the last row and the last column. *)
Definition array_border_labels (labeled_image : iarray) : list Z :=
  let '(nr, nc) := shape labeled_image in
  nth 0 labeled_image []
  ++ map (fun row => nth 0 row 0) labeled_image
  ++ nth (nr - 1) labeled_image []
  ++ map (fun row => nth (nc - 1) row 0) labeled_image.

(** [any(histogram[1:] > 0)] *)
Definition any_object (histogram : list Z) : bool :=
  existsb (Z.ltb 0) (tl histogram).

(** The histogram of [border_labels] over the labels [0 .. max]: it has a
    value > 0 for any object with a border pixel. *)
Definition border_histogram (labeled_image : iarray) (border_labels : list Z)
  : M (list Z) :=
  top <- of_option (ValueError "zero-size array") (np_max labeled_image) ;;
  of_option (ValueError "negative row index found")
            (coo_histogram border_labels (top + 1)).

(** [labeled_image[histogram[labeled_image] > 0] = 0] *)
Definition discard_counted (labeled_image : iarray) (histogram : list Z)
  : M iarray :=
  histogram_image <- of_option IndexError (np_take histogram labeled_image) ;;
  ret (set_where labeled_image (gmap (Z.ltb 0) histogram_image) 0).

(** Filter out objects touching the border; if none does and the image has
    a mask, filter out objects touching the border of the mask. *)
Definition filter_on_border (image : cpimage) (labeled_image : iarray)
  : M iarray :=
  if exclude_border_objects self then
    let '(nr, nc) := shape labeled_image in
    if ((nr =? 0) || (nc =? 0))%nat then raise IndexError
    else
      let border_labels := array_border_labels labeled_image in
      histogram <- border_histogram labeled_image border_labels ;;
      if any_object histogram then discard_counted labeled_image histogram
      else if has_mask image then
        eroded <- running CallErodeMask (binary_erosion (mask image)) ;;
        let mask_border := gmap2 andb (gmap negb eroded) (mask image) in
        let border_labels := select_where labeled_image mask_border in
        histogram <- border_histogram labeled_image border_labels ;;
        if any_object histogram then discard_counted labeled_image histogram
        else ret labeled_image
      else ret labeled_image
  else ret labeled_image.

(** What [run] hands to the object set and to the display. *)
Record segmentation : Type := {
  segmented : iarray;
  unedited_segmented : iarray;
  small_removed_segmented : iarray;
  border_excluded_labeled_image : iarray;
  size_excluded_labeled_image : iarray;
  outline_image : iarray;
  outline_size_excluded_image : iarray;
  outline_border_excluded_image : iarray;
  final_object_count : Z;
  maxima_suppression_size_used : Q
}.

Definition fill_if_wanted (labeled_image : iarray) : M iarray :=
  if fill_holes self
  then running CallFillHoles (fill_labeled_holes labeled_image)
  else ret labeled_image.

(** Lines 631-655 of [run]: the filters, the relabeling and the outlines. *)
Definition filter_and_relabel (image : cpimage) (labeled_image : iarray)
           (object_count : Z) (maxima_suppression_size : Q) : M segmentation :=
  let unedited_labels := labeled_image in
  (* Filter out objects touching the border or mask *)
  let border_excluded := labeled_image in
  labeled_image <- filter_on_border image labeled_image ;;
  let border_excluded :=
    set_where border_excluded (gmap (Z.ltb 0) labeled_image) 0 in
  (* Filter out small and large objects *)
  let size_excluded := labeled_image in
  '(labeled_image, small_removed_labels) <-
    filter_on_size labeled_image object_count ;;
  let size_excluded :=
    set_where size_excluded (gmap (Z.ltb 0) labeled_image) 0 in
  (* Relabel the image *)
  '(labeled_image, object_count) <- running CallRelabel (relabel labeled_image) ;;
  (* Fill again *)
  labeled_image <- fill_if_wanted labeled_image ;;
  (* Make an outline image *)
  outline_image <- running CallOutline (outline K labeled_image) ;;
  outline_size_excluded_image <-
    running CallOutline (outline K size_excluded) ;;
  outline_border_excluded_image <-
    running CallOutline (outline K border_excluded) ;;
  ret {| segmented := labeled_image;
         unedited_segmented := unedited_labels;
         small_removed_segmented := small_removed_labels;
         border_excluded_labeled_image := border_excluded;
         size_excluded_labeled_image := size_excluded;
         outline_image := outline_image;
         outline_size_excluded_image := outline_size_excluded_image;
         outline_border_excluded_image := outline_border_excluded_image;
         final_object_count := object_count;
         maxima_suppression_size_used := maxima_suppression_size |}.

(** [run] from line 618 on: [local_threshold] and [global_threshold] are the
    values obtained from the threshold collaborator on lines 603-617. *)
Definition run (image : cpimage) (local_threshold : farray)
           (global_threshold : Q) : M segmentation :=
  let img := pixel_data image in
  let mask := mask image in
  blurred_image <- running CallSmooth (smooth_image img mask 1%Q) ;;
  let binary_image :=
    gmap2 andb (gmap2 (fun b t => Qle_bool t b) blurred_image local_threshold)
          mask in
  '(labeled_image, object_count) <- running CallLabel (label binary_image) ;;
  (* Fill holes if appropriate *)
  labeled_image <- fill_if_wanted labeled_image ;;
  '(labeled_image, object_count, maxima_suppression_size) <-
    separate_neighboring_objects img mask labeled_image object_count
                                 global_threshold ;;
  filter_and_relabel image labeled_image object_count maxima_suppression_size.

(** Lines 663-664 of [run]: the sorted areas of the final objects. *)
Fixpoint insert_sorted (x : Z) (xs : list Z) : list Z :=
  match xs with
  | [] => [x]
  | y :: ys => if x <=? y then x :: xs else y :: insert_sorted x ys
  end.

Definition sorted_areas (labeled_image : iarray) (object_count : Z) : list Z :=
  fold_right insert_sorted [] (label_histogram labeled_image object_count).

(** The areas read for the two diameter statistics (lines 665 and 667). *)
Definition low_rank_area (labeled_image : iarray) (object_count : Z) : Z :=
  nth (Z.to_nat (object_count / 10)) (sorted_areas labeled_image object_count) 0.

Definition high_rank_area (labeled_image : iarray) (object_count : Z) : Z :=
  nth (Z.to_nat (object_count * 9 / 10)) (sorted_areas labeled_image object_count) 0.

End IdentifyPrimaryObjects.

(** ** Saved settings and their upgrade *)

(** Positions in the list of saved setting values (lines 170-198). *)
Definition THRESHOLD_METHOD_VAR : nat := 6.
Definition OBJECT_FRACTION_VAR : nat := 9.
Definition UNCLUMP_METHOD_VAR : nat := 10.
Definition WATERSHED_VAR : nat := 11.
Definition SMOOTHING_SIZE_VAR : nat := 12.
Definition MAXIMA_SUPPRESSION_SIZE_VAR : nat := 13.
Definition SAVE_OUTLINES_VAR : nat := 15.

(** Constants of [cellprofiler.settings], [cpmath.threshold] and [identify]
    that [upgrade_settings] writes or compares with, and the test whether
    [float(s)] succeeds. *)
Record Vocabulary : Type := {
  AUTOMATIC : string;
  YES : string;
  NO : string;
  DO_NOT_USE : string;
  TM_METHODS : list string;
  TM_MANUAL : string;
  TM_BINARY_IMAGE : string;
  O_TWO_CLASS : string;
  O_WEIGHTED_VARIANCE : string;
  O_FOREGROUND : string;
  parses_as_float : string -> bool
}.

(** [l[i]] *)
Definition item (l : list string) (i : nat) : M string :=
  of_option IndexError (nth_error l i).

(** The list [l] with [v] at position [i]. *)
Definition updated (l : list string) (i : nat) (v : string) : list string :=
  firstn i l ++ v :: skipn (S i) l.

(** [l[i] = v] *)
Definition set_item (l : list string) (i : nat) (v : string)
  : M (list string) :=
  if (i <? length l)%nat then ret (updated l i v)
  else raise IndexError.

(** [del l[i]] *)
Definition del_item (l : list string) (i : nat) : M (list string) :=
  if (i <? length l)%nat then ret (firstn i l ++ skipn (S i) l)
  else raise IndexError.

Definition is_digit_or_dot (c : Ascii.ascii) : bool :=
  let n := Ascii.nat_of_ascii c in
  ((48 <=? n) && (n <=? 57))%nat || (n =? 46)%nat.

(** The regular expression [([0-9.])%] matched at the start of [s]: the
    group when the string starts with one digit or dot followed by a percent
    sign (character 37). *)
Definition match_percent (s : string) : option Ascii.ascii :=
  match s with
  | String c (String p _) =>
      if is_digit_or_dot c && (Ascii.nat_of_ascii p =? 37)%nat
      then Some c else None
  | _ => None
  end.

(** [str(float(c) / 100.0)] for the matched character: [float(".")] is a
    ValueError. *)
Definition percent_to_fraction (c : Ascii.ascii) : M string :=
  if (Ascii.nat_of_ascii c =? 46)%nat
  then raise (ValueError "could not convert string to float")
  else if (Ascii.nat_of_ascii c =? 48)%nat then ret "0.0"%string
  else ret ("0.0" ++ String c EmptyString)%string.

(** The conversion of the matched character fails on the dot. *)
Definition starts_with_dot_percent (s : string) : bool :=
  match match_percent s with
  | Some c => (Ascii.nat_of_ascii c =? 46)%nat
  | None => false
  end.

(** What a call of [upgrade_settings] leaves behind: the returned triple and
    the list the caller passed in, which the Matlab translation writes to. *)
Record upgraded : Type := {
  upgraded_values : list string;
  upgraded_revision : Z;
  upgraded_from_matlab : bool;
  caller_values : list string
}.

Section UpgradeSettings.

Variable V : Vocabulary.

Local Open Scope monad_scope.
Local Open Scope list_scope.

(** Lines 463-534: the translation of a Matlab revision 12 module.  Returns
    the new values and the caller's list. *)
Definition translate_matlab (setting_values : list string)
  : M (list string * list string) :=
  let new_setting_values := firstn 18 setting_values in
  (* Remove the laplace values setting *)
  new_setting_values <- del_item new_setting_values 15 ;;
  smoothing <- item setting_values SMOOTHING_SIZE_VAR ;;
  new_setting_values <-
    (if (smoothing =? AUTOMATIC V)%string then
       new_setting_values <-
         set_item (new_setting_values ++ [YES V]) SMOOTHING_SIZE_VAR "10" ;;
       ret new_setting_values
     else ret (new_setting_values ++ [NO V])) ;;
  suppression <- item setting_values MAXIMA_SUPPRESSION_SIZE_VAR ;;
  new_setting_values <-
    (if (suppression =? AUTOMATIC V)%string then
       new_setting_values <-
         set_item (new_setting_values ++ [YES V])
                  MAXIMA_SUPPRESSION_SIZE_VAR "5" ;;
       ret new_setting_values
     else ret (new_setting_values ++ [NO V])) ;;
  method <- item setting_values THRESHOLD_METHOD_VAR ;;
  new_setting_values <-
    (if negb (existsb (String.eqb method) (TM_METHODS V)) then
       if parses_as_float V method then
         new_setting_values <-
           set_item new_setting_values THRESHOLD_METHOD_VAR (TM_MANUAL V) ;;
         ret (new_setting_values ++ [method; DO_NOT_USE V])
       else
         new_setting_values <-
           set_item new_setting_values THRESHOLD_METHOD_VAR
                    (TM_BINARY_IMAGE V) ;;
         ret (new_setting_values ++ ["0.0"%string; method])
     else ret (new_setting_values ++ ["0.0"%string; method])) ;;
  (* The object fraction is stored as a percent in Matlab (sometimes) *)
  fraction <- item setting_values OBJECT_FRACTION_VAR ;;
  setting_values <-
    match match_percent fraction with
    | Some c =>
        converted <- percent_to_fraction c ;;
        set_item setting_values OBJECT_FRACTION_VAR converted
    | None => ret setting_values
    end ;;
  outlines <- item new_setting_values SAVE_OUTLINES_VAR ;;
  new_setting_values <-
    (if (outlines =? DO_NOT_USE V)%string then
       set_item (new_setting_values ++ [NO V]) SAVE_OUTLINES_VAR "None"
     else ret (new_setting_values ++ [YES V])) ;;
  unclump <- item new_setting_values UNCLUMP_METHOD_VAR ;;
  new_setting_values <-
    (if (unclump =? DO_NOT_USE V)%string
     then set_item new_setting_values UNCLUMP_METHOD_VAR UN_NONE
     else ret new_setting_values) ;;
  dividing <- item new_setting_values WATERSHED_VAR ;;
  new_setting_values <-
    (if (dividing =? DO_NOT_USE V)%string
     then set_item new_setting_values WATERSHED_VAR WA_NONE
     else ret new_setting_values) ;;
  ret (new_setting_values, setting_values).

(** Lines 535-551: the upgrades between the revisions of this module. *)
Definition upgrade_revisions (setting_values : list string)
           (variable_revision_number : Z) : list string * Z :=
  let '(setting_values, variable_revision_number) :=
    if variable_revision_number =? 1
    then (setting_values ++ [YES V; ".5"%string], 2)
    else (setting_values, variable_revision_number) in
  let '(setting_values, variable_revision_number) :=
    if variable_revision_number =? 2
    then (setting_values
            ++ [O_TWO_CLASS V; O_WEIGHTED_VARIANCE V; O_FOREGROUND V], 3)
    else (setting_values, variable_revision_number) in
  if variable_revision_number =? 3
  then (setting_values ++ [YES V; "5"%string], 4)
  else (setting_values, variable_revision_number).

Definition upgrade_settings (setting_values : list string)
           (variable_revision_number : Z) (from_matlab : bool) : M upgraded :=
  '(new_values, caller, variable_revision_number, from_matlab) <-
    (if (variable_revision_number =? 12) && from_matlab then
       '(new_values, caller) <- translate_matlab setting_values ;;
       ret (new_values, caller, 1, false)
     else ret (setting_values, setting_values, variable_revision_number,
               from_matlab)) ;;
  let '(new_values, variable_revision_number) :=
    if negb from_matlab
    then upgrade_revisions new_values variable_revision_number
    else (new_values, variable_revision_number) in
  ret {| upgraded_values := new_values;
         upgraded_revision := variable_revision_number;
         upgraded_from_matlab := from_matlab;
         caller_values := caller |}.

End UpgradeSettings.

(** ** The settings shown and saved *)

Module Setting.

(** The setting objects of the module ([create_settings] and the threshold
    settings of the base class that [settings] lists). *)
Inductive id : Type :=
| image_name | object_name | size_range | exclude_size | merge_objects
| exclude_border_objects | threshold_method | threshold_correction_factor
| threshold_range | object_fraction | unclump_method | watershed_method
| smoothing_filter_size | maxima_suppression_size | low_res_maxima
| save_outlines | fill_holes | automatic_smoothing | automatic_suppression
| manual_threshold | binary_image | should_save_outlines
| wants_automatic_log_threshold | manual_log_threshold | two_class_otsu
| use_weighted_variance | assign_middle_to_foreground
| wants_automatic_log_diameter | log_diameter | test_mode.

End Setting.

(** [settings]: the settings saved in the pipeline, in their saved order
    (lines 440-456). *)
Definition saved_settings : list Setting.id :=
  [Setting.image_name; Setting.object_name; Setting.size_range;
   Setting.exclude_size; Setting.merge_objects;
   Setting.exclude_border_objects; Setting.threshold_method;
   Setting.threshold_correction_factor; Setting.threshold_range;
   Setting.object_fraction; Setting.unclump_method;
   Setting.watershed_method; Setting.smoothing_filter_size;
   Setting.maxima_suppression_size; Setting.low_res_maxima;
   Setting.save_outlines; Setting.fill_holes;
   Setting.automatic_smoothing; Setting.automatic_suppression;
   Setting.manual_threshold; Setting.binary_image;
   Setting.should_save_outlines;
   Setting.wants_automatic_log_threshold;
   Setting.manual_log_threshold;
   Setting.two_class_otsu; Setting.use_weighted_variance;
   Setting.assign_middle_to_foreground;
   Setting.wants_automatic_log_diameter; Setting.log_diameter].

(** [visible_settings] (lines 555-579).  [threshold_visible] is the list
    returned by [get_threshold_visible_settings] of the base class, and
    [wants_outlines] the value of [should_save_outlines]. *)
Definition visible_settings (self : settings) (wants_outlines : bool)
           (threshold_visible : list Setting.id) : list Setting.id :=
  let vv := [Setting.image_name; Setting.object_name; Setting.size_range;
             Setting.exclude_size; Setting.merge_objects;
             Setting.exclude_border_objects] ++ threshold_visible in
  let vv := vv ++ [Setting.unclump_method] in
  let vv :=
    if negb (unclump_method self =? UN_NONE)%string then
      let vv :=
        if (unclump_method self =? UN_LOG)%string then
          let vv := vv ++ [Setting.wants_automatic_log_threshold] in
          let vv := if negb (wants_automatic_log_threshold self)
                    then vv ++ [Setting.manual_log_threshold] else vv in
          let vv := vv ++ [Setting.wants_automatic_log_diameter] in
          if negb (wants_automatic_log_diameter self)
          then vv ++ [Setting.log_diameter] else vv
        else vv in
      let vv := vv ++ [Setting.watershed_method; Setting.automatic_smoothing] in
      let vv := if negb (automatic_smoothing self)
                then vv ++ [Setting.smoothing_filter_size] else vv in
      let vv := vv ++ [Setting.automatic_suppression] in
      let vv := if negb (automatic_suppression self)
                then vv ++ [Setting.maxima_suppression_size] else vv in
      vv ++ [Setting.low_res_maxima]
    else vv in
  let vv := vv ++ [Setting.should_save_outlines] in
  let vv := if wants_outlines then vv ++ [Setting.save_outlines] else vv in
  vv ++ [Setting.fill_holes].

(** ** The outline display and the displayed area *)

(** Lines 1000-1023 of [display] for a grayscale image: the red, green and
    blue channels of the outline image. *)
Definition outline_channels (pixel_data : farray)
           (outline_image outline_size_excluded_image
            outline_border_excluded_image : iarray)
  : farray * farray * farray :=
  let on (a : iarray) := gmap (fun l => negb (l =? 0)) a in
  let paint (c : farray) (accepted size_excluded border_excluded : Q) :=
    let c := set_where c (on outline_image) accepted in
    let c := set_where c (on outline_size_excluded_image) size_excluded in
    set_where c (on outline_border_excluded_image) border_excluded in
  (paint pixel_data 0%Q 1%Q 1%Q,
   paint pixel_data 1%Q 0%Q 1%Q,
   paint pixel_data 0%Q 0%Q 0%Q).

(** Lines 662 and 673-677 of [run]: the percentage of the image covered by
    objects, computed for the display when there is an object; [None] when
    there is none and nothing is computed.  The division is a float
    division, which raises when the array has no pixel. *)
Definition area_covered (labeled_image : iarray) (object_count : Z)
  : M (option Q) :=
  if 0 <? object_count then
    let object_area :=
      Z.of_nat (length (filter (Z.ltb 0) (flatten labeled_image))) in
    let total_area :=
      Z.of_nat (fst (shape labeled_image) * snd (shape labeled_image)) in
    if total_area =? 0 then raise ZeroDivisionError
    else ret (Some (100.0 * inject_Z object_area / inject_Z total_area)%Q)
  else ret None.

(** ** Vocabulary of the statements *)

(** The pixel-count area of the object labeled [l]. *)
Definition object_area (labeled_image : iarray) (l : Z) : Z :=
  count_eq l (flatten labeled_image).




(** Every row has the length of the first one. *)
Definition rectangular {A : Type} (g : grid A) : Prop :=
  forall row, In row g -> length row = snd (shape g).



(** At one pixel: [u] is the unedited label, [f], [s] and [b] the final,
    the size-excluded and the border-excluded ones.  Background stays
    background in all three maps, and a foreground pixel is nonzero in
    exactly one of them. *)
Definition partitioned (u f s b : Z) : Prop :=
  (u = 0 -> f = 0 /\ s = 0 /\ b = 0)
  /\ (u <> 0 ->
      (f <> 0 /\ s = 0 /\ b = 0)
      \/ (f = 0 /\ s <> 0 /\ b = 0)
      \/ (f = 0 /\ s = 0 /\ b <> 0)).

(** At one pixel with unedited label [u]: each of the size-excluded label
    [s] and the border-excluded label [b] is 0 or [u], and at most one of
    them is nonzero. *)
Definition excluded_apart (u s b : Z) : Prop :=
  (s = 0 \/ s = u) /\ (b = 0 \/ b = u) /\ (s = 0 \/ b = 0).


Definition within_countb (labeled_image : iarray) (object_count : Z) : bool :=
  forallb (forallb (fun l => (0 <=? l) && (l <=? object_count))) labeled_image.

(** A filter acts label by label when its output keeps or zeroes each
    entry according to the entry alone. *)
Definition per_label (g out : iarray) : Prop :=
  exists z : Z -> bool, out = gmap (fun l => if z l then 0 else l) g.

(** The threshold settings of the base class. *)
Definition threshold_settings : list Setting.id :=
  [Setting.threshold_method; Setting.threshold_correction_factor;
   Setting.threshold_range; Setting.object_fraction;
   Setting.manual_threshold; Setting.binary_image;
   Setting.two_class_otsu; Setting.use_weighted_variance;
   Setting.assign_middle_to_foreground].

(** The mode strings the module implements. *)
Definition supported_unclump (m : string) : Prop :=
  m = UN_INTENSITY \/ m = UN_SHAPE \/ m = UN_LOG \/ m = UN_NONE.

Definition supported_watershed (m : string) : Prop :=
  m = WA_INTENSITY \/ m = WA_DISTANCE \/ m = WA_NONE.

(** Entries of a list in increasing order. *)
Definition increasing (xs : list Z) : Prop :=
  forall i j, (i <= j < length xs)%nat -> nth i xs 0 <= nth j xs 0.

(** [self] with the low-resolution setting replaced. *)
Definition with_low_res_maxima (b : bool) (self : settings) : settings := {|
  size_range_min := size_range_min self;
  size_range_max := size_range_max self;
  exclude_size := exclude_size self;
  exclude_border_objects := exclude_border_objects self;
  unclump_method := unclump_method self;
  watershed_method := watershed_method self;
  automatic_smoothing := automatic_smoothing self;
  smoothing_filter_size := smoothing_filter_size self;
  automatic_suppression := automatic_suppression self;
  maxima_suppression_size := maxima_suppression_size self;
  low_res_maxima := b;
  fill_holes := fill_holes self;
  wants_automatic_log_threshold := wants_automatic_log_threshold self;
  manual_log_threshold := manual_log_threshold self;
  wants_automatic_log_diameter := wants_automatic_log_diameter self;
  log_diameter := log_diameter self
|}.

(** ** The displayed diameter statistics

    The two statistics involve a square root; they are stated over the real
    numbers, with [PI] for [np.pi]. *)

Module Statistics.
Import Reals.
Local Open Scope R_scope.

(** [math.sqrt(float(area))*2/np.pi] (lines 665-668). *)
Definition diameter_statistic (area : Z) : R := sqrt (IZR area) * 2 / PI.

Definition low_diameter (labeled_image : iarray) (object_count : Z) : R :=
  diameter_statistic (low_rank_area labeled_image object_count).

Definition high_diameter (labeled_image : iarray) (object_count : Z) : R :=
  diameter_statistic (high_rank_area labeled_image object_count).

(** The diameter of the disk of a given area, [2·sqrt(area/π)]. *)
Definition equivalent_diameter (area : Z) : R := 2 * sqrt (IZR area / PI).

End Statistics.

(** ** Concrete collaborators and inputs for the examples *)

Module Examples.

(** The (2,2) Padé approximant of the exponential: positive everywhere. *)
Definition exp_approx (x : Q) : Q :=
  ((12 + 6 * x + x * x) / (12 - 6 * x + x * x))%Q.

(** Four Newton steps toward the square root. *)
Definition sqrt_approx (x : Q) : Q :=
  let step (y : Q) := Qred ((y + x / y) / 2)%Q in
  step (step (step (step (Qred ((1 + x) / 2)%Q)))).

(** Nearest-sample lookup. *)
Definition sample_nearest (a : farray) (i_j : grid (Q * Q)) : farray :=
  gmap (fun p : Q * Q =>
          at_or 0%Q a (Qfloor (fst p + 0.5)) (Qfloor (snd p + 0.5))) i_j.

(** An instance of the collaborators on which the model can be run.  The
    exponential and the square root are rational approximations; the other
    routines are the plainest arrays of the right shape. *)
Definition plain_kernels : Kernels := {|
  np_exp := exp_approx;
  np_sqrt := sqrt_approx;
  map_coordinates := sample_nearest;
  distance_transform_edt := gmap bool_to_float;
  seeded_uniform := fun lo _ sh => tabulate (fst sh) (snd sh) (fun _ _ => lo);
  stretch := fun a _ => a;
  laplacian_of_gaussian := fun a _ _ _ => a;
  otsu := fun _ lo _ _ => lo;
  watershed := fun _ markers _ _ => markers;
  outline := fun lab => lab
|}.

Definition defaults : settings := {|
  size_range_min := 10;
  size_range_max := 40;
  exclude_size := true;
  exclude_border_objects := true;
  unclump_method := UN_INTENSITY;
  watershed_method := WA_INTENSITY;
  automatic_smoothing := true;
  smoothing_filter_size := 10;
  automatic_suppression := true;
  maxima_suppression_size := 7;
  low_res_maxima := true;
  fill_holes := true;
  wants_automatic_log_threshold := true;
  manual_log_threshold := 0.5%Q;
  wants_automatic_log_diameter := true;
  log_diameter := 5%Q
|}.

(** Settings with a manual smoothing size [smooth], a manual suppression
    size [suppress] and full-resolution maxima. *)
Definition manual (unclump dividing : string) (smooth suppress : Z)
           (min_diameter max_diameter : Z)
           (discard_size discard_border fill : bool) : settings := {|
  size_range_min := min_diameter;
  size_range_max := max_diameter;
  exclude_size := discard_size;
  exclude_border_objects := discard_border;
  unclump_method := unclump;
  watershed_method := dividing;
  automatic_smoothing := false;
  smoothing_filter_size := smooth;
  automatic_suppression := false;
  maxima_suppression_size := suppress;
  low_res_maxima := false;
  fill_holes := fill;
  wants_automatic_log_threshold := true;
  manual_log_threshold := 0.5%Q;
  wants_automatic_log_diameter := true;
  log_diameter := 5%Q
|}.

(** Two peaks in one foreground blob, the left one dimmer than the global
    threshold 0.5. *)
Definition two_peaks : farray := [[0.2; 0.1; 0.9]]%Q.
Definition one_blob : iarray := [[1; 1; 1]].
(** A per-pixel threshold under which all of [two_peaks] is foreground. *)
Definition adaptive_threshold : farray := [[0.15; 0.05; 0.5]]%Q.
Definition all_valid_1x3 : barray := [[true; true; true]].
Definition peaks_settings : settings :=
  manual UN_INTENSITY WA_INTENSITY 0 2 10 40 true true true.

(** Two peaks in one foreground blob, both brighter than the threshold. *)
Definition bright_peaks : farray := [[0.9; 0.6; 0.8]]%Q.

(** A ring around a single bright pixel. *)
Definition ring_and_dot : farray :=
  [[1; 1; 1; 1; 1];
   [1; 0; 0; 0; 1];
   [1; 0; 1; 0; 1];
   [1; 0; 0; 0; 1];
   [1; 1; 1; 1; 1]]%Q.
Definition all_valid_5x5 : barray := tabulate 5 5 (fun _ _ => true).
Definition half_5x5 : farray := tabulate 5 5 (fun _ _ => 0.5%Q).
Definition ring_image : cpimage :=
  {| pixel_data := ring_and_dot; mask := all_valid_5x5; has_mask := false |}.
Definition ring_settings (fill : bool) : settings :=
  manual UN_NONE WA_INTENSITY 0 7 2 40 true false fill.

Definition ring_run (fill : bool) : M segmentation :=
  run plain_kernels (ring_settings fill) ring_image half_5x5 0.5%Q.

(** The label maps of [ring_run false]. *)
Definition ring_unedited : iarray :=
  [[1; 1; 1; 1; 1];
   [1; 0; 0; 0; 1];
   [1; 0; 2; 0; 1];
   [1; 0; 0; 0; 1];
   [1; 1; 1; 1; 1]].
Definition ring_only : iarray :=
  [[1; 1; 1; 1; 1];
   [1; 0; 0; 0; 1];
   [1; 0; 0; 0; 1];
   [1; 0; 0; 0; 1];
   [1; 1; 1; 1; 1]].
Definition dot_only : iarray :=
  [[0; 0; 0; 0; 0];
   [0; 0; 0; 0; 0];
   [0; 0; 2; 0; 0];
   [0; 0; 0; 0; 0];
   [0; 0; 0; 0; 0]].
Definition ring_result : segmentation := {|
  segmented := ring_only;
  unedited_segmented := ring_unedited;
  small_removed_segmented := ring_only;
  border_excluded_labeled_image := tabulate 5 5 (fun _ _ => 0);
  size_excluded_labeled_image := dot_only;
  outline_image := ring_only;
  outline_size_excluded_image := dot_only;
  outline_border_excluded_image := tabulate 5 5 (fun _ _ => 0);
  final_object_count := 1;
  maxima_suppression_size_used := 7%Q
|}.

Definition masked_image : cpimage := {|
  pixel_data := tabulate 3 3 (fun _ _ => 0.5%Q);
  mask := [[false; true; true]; [true; true; true]; [true; true; true]];
  has_mask := true
|}.

(** One object of four pixels. *)
Definition square_object : iarray := [[1; 1]; [1; 1]].

(** A row with a large and a small object. *)
Definition large_and_small : iarray := [[1; 1; 1; 1; 2]].

(** A manual smoothing size below zero. *)
Definition negative_size_settings : settings :=
  manual UN_INTENSITY WA_INTENSITY (-1) 2 10 40 true true true.
Definition step_edge : farray := [[0; 1]]%Q.
Definition all_valid_1x2 : barray := [[true; true]].

(** Mode strings outside the implemented sets. *)
Definition texture_none_settings : settings :=
  manual "Texture" WA_NONE 0 2 10 40 true true true.
Definition intensity_gradient_settings : settings :=
  manual UN_INTENSITY "Gradient" 0 2 10 40 true true true.

(** The constants with the values of [cellprofiler.settings]; a string
    counts as a number when it starts with a digit. *)
Definition cp_vocabulary : Vocabulary := {|
  AUTOMATIC := "Automatic";
  YES := "Yes";
  NO := "No";
  DO_NOT_USE := "Do not use";
  TM_METHODS := ["Otsu Global"; "Otsu Adaptive"; "MoG Global"]%string;
  TM_MANUAL := "Manual";
  TM_BINARY_IMAGE := "Binary image";
  O_TWO_CLASS := "Two classes";
  O_WEIGHTED_VARIANCE := "Weighted variance";
  O_FOREGROUND := "Foreground";
  parses_as_float := fun s =>
    match s with
    | String c _ => is_digit_or_dot c
    | EmptyString => false
    end
|}.

(** The 19 values of a Matlab revision 12 module. *)
Definition matlab_values : list string :=
  ["OrigBlue"; "Nuclei"; "10,40"; "Yes"; "No"; "Yes"; "Otsu Global"; "1";
   "0,1"; "5%"; "Do not use"; "Intensity"; "Automatic"; "7"; "Yes";
   "0.5"; "Do not use"; "Yes"; "No"]%string.

(** The 22 values of a revision 1 module. *)
Definition revision_1_values : list string :=
  ["OrigBlue"; "Nuclei"; "10,40"; "Yes"; "No"; "Yes"; "Otsu Global"; "1";
   "0,1"; "0.05"; "None"; "Intensity"; "10"; "7"; "Yes"; "None"; "Yes";
   "Yes"; "No"; "0.0"; "Otsu Global"; "No"]%string.

End Examples.

(** * Properties *)

(** ** Arrays *)

Section ArrayFacts.

Context {A B C : Type}.

Lemma zip_with_map_r (f : A -> B -> C) (g : A -> B) (xs : list A) :
  zip_with f xs (map g xs) = map (fun x => f x (g x)) xs.
Proof.
  induction xs as [|x xs IH]; simpl; [reflexivity|].
  now rewrite IH.
Qed.

Lemma pixel_gmap (f : A -> B) (g : grid A) (r c : nat) :
  pixel (gmap f g) r c = option_map f (pixel g r c).
Proof.
  unfold pixel, gmap.
  rewrite nth_error_map.
  destruct (nth_error g r) as [row|]; simpl; [|reflexivity].
  apply nth_error_map.
Qed.

Lemma gmap_ext (f h : A -> B) (g : grid A) :
  (forall x, f x = h x) -> gmap f g = gmap h g.
Proof.
  intros E. unfold gmap.
  apply map_ext. intros row. apply map_ext. exact E.
Qed.

Lemma pixel_In (g : grid A) (r c : nat) (x : A) :
  pixel g r c = Some x -> In x (flatten g).
Proof.
  unfold pixel, flatten. intros H.
  destruct (nth_error g r) as [row|] eqn:Hr; [|discriminate].
  apply in_concat. exists row. split; eauto using nth_error_In.
Qed.

Lemma In_pixel (g : grid A) (x : A) :
  In x (flatten g) -> exists r c, pixel g r c = Some x.
Proof.
  unfold flatten. intros H.
  apply in_concat in H. destruct H as (row & Hrow & Hx).
  apply In_nth_error in Hrow. destruct Hrow as [r Hr].
  apply In_nth_error in Hx. destruct Hx as [c Hc].
  exists r, c. unfold pixel. now rewrite Hr.
Qed.

Lemma traverse_map (f : A -> option B) (g : A -> B) (xs : list A) :
  (forall x, In x xs -> f x = Some (g x)) ->
  traverse f xs = Some (map g xs).
Proof.
  induction xs as [|x xs IH]; simpl; intros H; [reflexivity|].
  rewrite (H x) by now left.
  rewrite IH by (intros y Hy; apply H; now right).
  reflexivity.
Qed.

Lemma traverse_Some (f : A -> option B) (d : B) (xs : list A) (ys : list B) :
  traverse f xs = Some ys ->
  (forall x, In x xs -> f x <> None)
  /\ ys = map (fun x => match f x with Some y => y | None => d end) xs.
Proof.
  revert ys. induction xs as [|x xs IH]; simpl; intros ys H.
  - inversion H. split; [intros x []|reflexivity].
  - destruct (f x) as [y|] eqn:Ex; [|discriminate].
    destruct (traverse f xs) as [ys'|]; [|discriminate].
    inversion H; subst. destruct (IH ys' eq_refl) as [Hall Hmap].
    split.
    + intros z [<-|Hz]; [congruence|now apply Hall].
    + now rewrite Hmap.
Qed.

End ArrayFacts.

Lemma gmap_gmap {A B C : Type} (f : B -> C) (h : A -> B) (g : grid A) :
  gmap f (gmap h g) = gmap (fun x => f (h x)) g.
Proof.
  unfold gmap. rewrite map_map. apply map_ext. intros row. apply map_map.
Qed.

Lemma gmap2_gmap_r {A B C : Type} (f : A -> B -> C) (h : A -> B) (g : grid A) :
  gmap2 f g (gmap h g) = gmap (fun x => f x (h x)) g.
Proof.
  unfold gmap2, gmap.
  rewrite zip_with_map_r. apply map_ext. intros row. apply zip_with_map_r.
Qed.

Lemma zip_with_map_map {A B C D : Type} (f : B -> C -> D)
      (h : A -> B) (k : A -> C) (xs : list A) :
  zip_with f (map h xs) (map k xs) = map (fun x => f (h x) (k x)) xs.
Proof.
  induction xs as [|x xs IH]; simpl; [reflexivity|]. now rewrite IH.
Qed.

Lemma gmap2_gmap_gmap {A B C D : Type} (f : B -> C -> D)
      (h : A -> B) (k : A -> C) (g : grid A) :
  gmap2 f (gmap h g) (gmap k g) = gmap (fun x => f (h x) (k x)) g.
Proof.
  unfold gmap2, gmap.
  rewrite zip_with_map_map. apply map_ext. intros row.
  apply zip_with_map_map.
Qed.

Lemma nth_error_zip_with {A B C : Type} (f : A -> B -> C)
      (xs : list A) (ys : list B) (n : nat) :
  nth_error (zip_with f xs ys) n
  = match nth_error xs n, nth_error ys n with
    | Some x, Some y => Some (f x y)
    | _, _ => None
    end.
Proof.
  revert ys n. induction xs as [|x xs IH]; intros [|y ys] [|n]; simpl;
    try reflexivity.
  - now destruct (nth_error xs n).
  - apply IH.
Qed.

Lemma pixel_gmap2 {A B C : Type} (f : A -> B -> C)
      (a : grid A) (b : grid B) (r c : nat) :
  pixel (gmap2 f a b) r c
  = match pixel a r c, pixel b r c with
    | Some x, Some y => Some (f x y)
    | _, _ => None
    end.
Proof.
  unfold pixel, gmap2. rewrite nth_error_zip_with.
  destruct (nth_error a r) as [ra|], (nth_error b r) as [rb|]; try reflexivity.
  - apply nth_error_zip_with.
  - now destruct (nth_error ra c).
Qed.

Lemma pixel_tabulate {A : Type} (nr nc : nat) (f : nat -> nat -> A) (r c : nat) :
  (r < nr)%nat -> (c < nc)%nat -> pixel (tabulate nr nc f) r c = Some (f r c).
Proof.
  intros Hr Hc. unfold pixel, tabulate.
  rewrite nth_error_map.
  rewrite (nth_error_nth' _ 0%nat) by now rewrite length_seq.
  rewrite seq_nth by assumption. simpl.
  rewrite nth_error_map.
  rewrite (nth_error_nth' _ 0%nat) by now rewrite length_seq.
  now rewrite seq_nth.
Qed.

Lemma pixel_tabulate_inv {A : Type} (nr nc : nat) (f : nat -> nat -> A)
      (r c : nat) (y : A) :
  pixel (tabulate nr nc f) r c = Some y ->
  (r < nr)%nat /\ (c < nc)%nat /\ y = f r c.
Proof.
  intros H.
  destruct (Nat.lt_ge_cases r nr) as [Hr|Hr].
  - destruct (Nat.lt_ge_cases c nc) as [Hc|Hc].
    + rewrite pixel_tabulate in H by assumption.
      inversion H. auto.
    + exfalso. unfold pixel, tabulate in H.
      rewrite nth_error_map in H.
      destruct (nth_error (seq 0 nr) r) as [r'|]; [|discriminate].
      simpl in H. rewrite nth_error_map in H.
      assert (E : nth_error (seq 0 nc) c = None)
        by (apply nth_error_None; now rewrite length_seq).
      rewrite E in H. discriminate.
  - exfalso. unfold pixel, tabulate in H.
    rewrite nth_error_map in H.
    assert (E : nth_error (seq 0 nr) r = None)
      by (apply nth_error_None; now rewrite length_seq).
    rewrite E in H. discriminate.
Qed.

Lemma set_where_gmap {A : Type} (p : A -> bool) (v : A) (g : grid A) :
  set_where g (gmap p g) v = gmap (fun x => if p x then v else x) g.
Proof. apply gmap2_gmap_r. Qed.

Lemma np_take_Some {A : Type} (d : A) (table : list A) (idx : grid Z) (g : grid A) :
  np_take table idx = Some g ->
  g = gmap (fun i => match np_index table i with Some x => x | None => d end) idx.
Proof.
  unfold np_take, gmap. intros H.
  apply (traverse_Some _ []) in H. destruct H as [Hrows ->].
  apply map_ext_in. intros row Hrow.
  specialize (Hrows row Hrow).
  destruct (traverse (np_index table) row) as [ys|] eqn:E; [|congruence].
  now apply (traverse_Some _ d) in E.
Qed.

Lemma np_take_total {A : Type} (table : list A) (idx : grid Z) (f : Z -> A) :
  (forall r c i, pixel idx r c = Some i -> np_index table i = Some (f i)) ->
  np_take table idx = Some (gmap f idx).
Proof.
  intros H. unfold np_take, gmap.
  apply traverse_map. intros row Hrow.
  apply traverse_map. intros i Hi.
  destruct (In_pixel idx i) as (r & c & Hp).
  - unfold flatten. apply in_concat. eauto.
  - eauto.
Qed.

(** ** The monad *)

Lemma outcome_bind {A B : Type} (m : M A) (f : A -> M B) :
  outcome (bind m f)
  = match outcome m with
    | Ok a => outcome (f a)
    | Raise e => Raise e
    end.
Proof.
  destruct m as [l [a|e]]; simpl; [|reflexivity].
  now destruct (f a).
Qed.

Lemma logged_bind {A B : Type} (m : M A) (f : A -> M B) :
  logged (bind m f)
  = (logged m ++ match outcome m with
                 | Ok a => logged (f a)
                 | Raise _ => []
                 end)%list.
Proof.
  destruct m as [l [a|e]]; simpl.
  - now destruct (f a).
  - now rewrite app_nil_r.
Qed.

Lemma bind_Ok {A B : Type} (m : M A) (f : A -> M B) (b : B) :
  outcome (bind m f) = Ok b ->
  exists a, outcome m = Ok a /\ outcome (f a) = Ok b.
Proof.
  rewrite outcome_bind.
  destruct (outcome m) as [a|e]; [eauto|discriminate].
Qed.

Lemma M_eta {A : Type} (m : M A) : m = (logged m, outcome m).
Proof. now destruct m. Qed.

(** ** The smoothing filter *)

(** C10: in automatic mode the smoothing filter size is 2.35·min_diameter/3.5,
    so that the standard deviation of the unclumping blur, filter_size/2.35,
    equals min_diameter/3.5; otherwise the size is the manual setting. *)
Theorem calc_smoothing_filter_size_spec (self : settings) :
  (automatic_smoothing self = true ->
   calc_smoothing_filter_size self
   = (2.35 * inject_Z (size_range_min self) / 3.5)%Q
   /\ (unclump_sigma self == inject_Z (size_range_min self) / 3.5)%Q)
  /\ (automatic_smoothing self = false ->
      calc_smoothing_filter_size self = inject_Z (smoothing_filter_size self)).
Proof.
  unfold unclump_sigma, calc_smoothing_filter_size.
  split; intros ->.
  - split; [reflexivity|]. field.
  - reflexivity.
Qed.

Lemma calc_smoothing_filter_size_spec_witness :
  calc_smoothing_filter_size Examples.defaults = (2.35 * inject_Z 10 / 3.5)%Q
  /\ (unclump_sigma Examples.defaults == inject_Z 10 / 3.5)%Q.
Proof.
  apply (proj1 (calc_smoothing_filter_size_spec Examples.defaults)).
  reflexivity.
Defined.

(** C9 (amended): when the smoothing filter size equals 0, [smooth_image]
    returns its input array, whatever the mask and the standard deviation. *)
Theorem smooth_image_zero_size_is_identity (K : Kernels) (self : settings)
        (image : farray) (mask : barray) (sigma : Q) :
  (calc_smoothing_filter_size self == 0)%Q ->
  smooth_image K self image mask sigma = image.
Proof.
  intros H. unfold smooth_image.
  apply Qeq_bool_iff in H. now rewrite H.
Qed.

Lemma smooth_image_zero_size_is_identity_witness :
  smooth_image Examples.plain_kernels Examples.peaks_settings
               Examples.two_peaks Examples.all_valid_1x3 1%Q
  = Examples.two_peaks.
Proof.
  apply (smooth_image_zero_size_is_identity Examples.plain_kernels
           Examples.peaks_settings).
  reflexivity.
Defined.

Lemma blur_weights_positive (c e0 e1 : Q) :
  ~ (c == 0)%Q -> (0 < e0)%Q -> (0 < e1)%Q ->
  (0 < (c * e1) * (c * e0))%Q /\ (0 < (c * e0) * (c * e0))%Q.
Proof.
  intros Hc H0 H1.
  assert (H : (0 < c * c)%Q).
  { destruct (Q_dec c 0) as [[Hlt|Hgt]|Heq]; [| |contradiction]; nra. }
  pose proof (Qmult_lt_0_compat _ _ H H0) as Hce0.
  pose proof (Qmult_lt_0_compat _ _ Hce0 H1) as Hce01.
  pose proof (Qmult_lt_0_compat _ _ Hce0 H0) as Hce00.
  split.
  - setoid_replace (c * e1 * (c * e0))%Q with (c * c * e0 * e1)%Q by ring.
    assumption.
  - setoid_replace (c * e0 * (c * e0))%Q with (c * c * e0 * e0)%Q by ring.
    assumption.
Qed.

Lemma blur_scale_nonzero (s sigma : Q) :
  ~ (s == 0)%Q -> ~ (sigma == 0)%Q -> ~ (1 / s / sigma == 0)%Q.
Proof.
  intros Hs Hsig H.
  assert (E : (1 / s / sigma * (s * sigma) == 1)%Q) by (field; auto).
  rewrite H in E. lra.
Qed.

(** The left pixel of the blurred step edge, for the side weight [ws] and
    the centre weight [wc] of a three-tap kernel. *)
Lemma blurred_edge_value (ws wc : Q) :
  (0 < ws * wc)%Q -> (0 < wc * wc)%Q ->
  ~ ((0 + ws * (0 + ws * 0 + wc * 1 + ws * 0)
      + wc * (0 + ws * 0 + wc * 0 + ws * 0) + ws * 0)
     / (0 + ws * (0 + ws * 0 + wc * 1 + ws * 0)
        + wc * (0 + ws * 0 + wc * 1 + ws * 0) + ws * 0) == 0)%Q.
Proof.
  intros H1 H2 H.
  assert (Hd : (0 < 0 + ws * (0 + ws * 0 + wc * 1 + ws * 0)
                    + wc * (0 + ws * 0 + wc * 1 + ws * 0) + ws * 0)%Q) by lra.
  assert (Hn : (0 < 0 + ws * (0 + ws * 0 + wc * 1 + ws * 0)
                    + wc * (0 + ws * 0 + wc * 0 + ws * 0) + ws * 0)%Q) by lra.
  pose proof (Qinv_lt_0_compat _ Hd) as Hi.
  pose proof (Qmult_lt_0_compat _ _ Hn Hi) as Hp.
  unfold Qdiv in H. rewrite H in Hp. now apply Qlt_irrefl in Hp.
Qed.

(** With the manual size -1 the step edge [0; 1] is blurred whatever the
    collaborators compute, as long as the exponential is positive and the
    standard deviation and the square root of 2π are not zero. *)
Lemma smooth_image_negative_size_changes_edge (K : Kernels) (sigma : Q) :
  (forall x, 0 < np_exp K x)%Q ->
  ~ (np_sqrt K (2.0 * np_pi) == 0)%Q ->
  ~ (sigma == 0)%Q ->
  smooth_image K Examples.negative_size_settings Examples.step_edge
               Examples.all_valid_1x2 sigma
  <> Examples.step_edge.
Proof.
  intros Hexp Hsqrt Hsigma Heq.
  apply (f_equal (fun a => pixel a 0 0)) in Heq.
  revert Heq. unfold smooth_image.
  change (Qeq_bool (calc_smoothing_filter_size Examples.negative_size_settings) 0)
    with false.
  cbv iota.
  change (Z.max (Qtrunc (calc_smoothing_filter_size
                           Examples.negative_size_settings / 2.0)) 1) with 1.
  unfold gaussian_kernel.
  change (arange (- (1)) (1 + 1)) with [-1; 0; 1].
  cbn [map Z.mul Pos.mul Z.opp].
  set (c := (1 / np_sqrt K (2.0 * np_pi) / sigma)%Q).
  set (e1 := np_exp K (-0.5 * inject_Z 1 / (sigma * sigma))).
  set (e0 := np_exp K (-0.5 * inject_Z 0 / (sigma * sigma))).
  rewrite pixel_gmap2.
  unfold fgaussian, convolve1d_axis1, convolve1d_axis0.
  cbv [Examples.step_edge Examples.all_valid_1x2 set_where gmap gmap2
       zip_with map negb shape fst snd length hd].
  rewrite !pixel_tabulate by (simpl; lia).
  cbv [conv_at enumerate combine arange length Z.of_nat Z.div Z.to_nat Z.sub
       Z.add map seq Qsum fold_left fst snd Z.div_eucl Z.pos_div_eucl
       Pos.of_succ_nat Pos.succ Z.opp Pos.to_nat Pos.iter_op Init.Nat.add
       Z.pos_sub Z.succ_double Z.pred_double Z.double Pos.pred_double Z.leb
       Z.ltb Z.compare Pos.compare Pos.compare_cont Z.mul Pos.mul Pos.add
       at_or orb pixel nth_error tabulate].
  intros Heq.
  assert (Hsome : forall x y : Q, Some x = Some y -> x = y)
    by (intros x y E; congruence).
  apply Hsome in Heq.
  destruct (blur_weights_positive c e0 e1) as [H1 H0];
    [now apply blur_scale_nonzero|apply Hexp|apply Hexp|].
  apply (blurred_edge_value (c * e1) (c * e0) H1 H0).
  rewrite Heq. reflexivity.
Qed.

(** C9 as stated fails below zero: with the manual size -1 the filter size is
    negative, the kernel has three taps and the step edge [0; 1] is blurred. *)
Lemma smooth_image_negative_size_blurs :
  (calc_smoothing_filter_size Examples.negative_size_settings <= 0)%Q
  /\ smooth_image Examples.plain_kernels Examples.negative_size_settings
                  Examples.step_edge Examples.all_valid_1x2 1%Q
     <> Examples.step_edge.
Proof.
  split; [vm_compute; discriminate|].
  intros H.
  apply (f_equal (fun a => match pixel a 0 0 with
                           | Some v => Qeq_bool v 0
                           | None => true
                           end)) in H.
  vm_compute in H. discriminate.
Qed.

(** ** The unclumping modes *)

(** C3: when the unclumping mode or the dividing-line mode is None,
    [separate_neighboring_objects] returns the labeled image and the object
    count it was given together with the maxima suppression size 7, and
    calls no smoothing, maxima detection, labeling or watershed. *)
Theorem separate_none_returns_input (K : Kernels) (self : settings)
        (image : farray) (mask : barray) (labeled_image : iarray)
        (object_count : Z) (threshold : Q) :
  unclump_method self = UN_NONE \/ watershed_method self = WA_NONE ->
  separate_neighboring_objects K self image mask labeled_image object_count
                               threshold
  = ([], Ok (labeled_image, object_count, 7%Q)).
Proof.
  intros H. unfold separate_neighboring_objects.
  destruct H as [-> | ->].
  - reflexivity.
  - rewrite (String.eqb_refl WA_NONE), orb_true_r. reflexivity.
Qed.

Lemma separate_none_returns_input_witness :
  separate_neighboring_objects Examples.plain_kernels
    (Examples.ring_settings true) Examples.ring_and_dot Examples.all_valid_5x5
    [[1; 0; 2]] 2 0.5%Q
  = ([], Ok ([[1; 0; 2]], 2, 7%Q)).
Proof.
  apply separate_none_returns_input. left. reflexivity.
Defined.

Lemma find_maxima_supported (K : Kernels) (self : settings)
      (image : farray) (mask : barray) (labeled_image : iarray)
      (blurred_image : farray) (threshold : Q) (maxima_mask : barray) :
  supported_unclump (unclump_method self) ->
  unclump_method self <> UN_NONE ->
  exists v, outcome (find_maxima K self image mask labeled_image blurred_image
                                 threshold maxima_mask) = Ok v
            /\ ~ In CallWatershed
                 (logged (find_maxima K self image mask labeled_image
                                      blurred_image threshold maxima_mask))
            /\ ~ In CallLabel
                 (logged (find_maxima K self image mask labeled_image
                                      blurred_image threshold maxima_mask)).
Proof.
  intros Hs Hn. unfold find_maxima.
  destruct Hs as [E | [E | [E | E]]]; try contradiction;
    rewrite E; simpl; eexists; (split; [reflexivity|]);
    split; intros H; simpl in H; intuition discriminate.
Qed.

Lemma find_maxima_unsupported (K : Kernels) (self : settings)
      (image : farray) (mask : barray) (labeled_image : iarray)
      (blurred_image : farray) (threshold : Q) (maxima_mask : barray) :
  ~ supported_unclump (unclump_method self) ->
  find_maxima K self image mask labeled_image blurred_image threshold maxima_mask
  = ([], Raise (NameError "s")).
Proof.
  intros Hs. unfold find_maxima, supported_unclump in *.
  destruct (String.eqb_spec (unclump_method self) UN_LOG); [tauto|].
  destruct (String.eqb_spec (unclump_method self) UN_INTENSITY); [tauto|].
  destruct (String.eqb_spec (unclump_method self) UN_SHAPE); [tauto|].
  reflexivity.
Qed.

Lemma watershed_surface_unsupported (K : Kernels) (self : settings)
      (image : farray) (labeled_image : iarray) (d : option farray) :
  ~ supported_watershed (watershed_method self) ->
  watershed_surface K self image labeled_image d
  = ([], Raise (NotImplementedError
                  ("Watershed method " ++ watershed_method self
                                       ++ " is not implemented"))).
Proof.
  intros Hs. unfold watershed_surface, supported_watershed in *.
  destruct (String.eqb_spec (watershed_method self) WA_INTENSITY); [tauto|].
  destruct (String.eqb_spec (watershed_method self) WA_DISTANCE); [tauto|].
  reflexivity.
Qed.

(** C7 (amended): when the unclumping mode or the dividing-line mode is
    None the input labeling is returned and the other mode string is not
    checked.  When neither is None, an unsupported unclumping mode ends in an
    exception, and an unsupported dividing-line mode with a supported
    unclumping mode raises NotImplementedError naming the mode; in both
    cases no seed labeling and no watershed is run and no labeling is
    returned. *)
Theorem unsupported_mode_raises (K : Kernels) (self : settings)
        (image : farray) (mask : barray) (labeled_image : iarray)
        (object_count : Z) (threshold : Q) :
  let m := separate_neighboring_objects K self image mask labeled_image
                                        object_count threshold in
  (unclump_method self = UN_NONE \/ watershed_method self = WA_NONE ->
   outcome m = Ok (labeled_image, object_count, 7%Q))
  /\ (unclump_method self <> UN_NONE -> watershed_method self <> WA_NONE ->
      ~ supported_unclump (unclump_method self) ->
      (exists e, outcome m = Raise e)
      /\ ~ In CallLabel (logged m) /\ ~ In CallWatershed (logged m))
  /\ (unclump_method self <> UN_NONE -> watershed_method self <> WA_NONE ->
      supported_unclump (unclump_method self) ->
      ~ supported_watershed (watershed_method self) ->
      outcome m
      = Raise (NotImplementedError
                 ("Watershed method " ++ watershed_method self
                                      ++ " is not implemented"))
      /\ ~ In CallLabel (logged m) /\ ~ In CallWatershed (logged m)).
Proof.
  intros m. subst m. unfold separate_neighboring_objects.
  split; [|split].
  - intros [E | E]; rewrite E; [reflexivity|].
    now rewrite (String.eqb_refl WA_NONE), orb_true_r.
  - intros Hu Hw Hs.
    destruct (String.eqb_spec (unclump_method self) UN_NONE); [contradiction|].
    destruct (String.eqb_spec (watershed_method self) WA_NONE); [contradiction|].
    simpl orb. cbv iota.
    rewrite outcome_bind, logged_bind. simpl.
    rewrite outcome_bind, logged_bind.
    rewrite find_maxima_unsupported by assumption. simpl.
    split; [eauto|]. split; intros H; intuition discriminate.
  - intros Hu Hw Hs Hws.
    destruct (String.eqb_spec (unclump_method self) UN_NONE); [contradiction|].
    destruct (String.eqb_spec (watershed_method self) WA_NONE); [contradiction|].
    simpl orb. cbv iota.
    destruct (find_maxima_supported K self image mask labeled_image
                (smooth_image K self image mask (unclump_sigma self))
                threshold
                (strel_disk (effective_maxima_suppression_size self - 0.5))
                Hs Hu) as ([maxima d] & Hv & Hnw & Hnl).
    rewrite outcome_bind, logged_bind. simpl.
    rewrite outcome_bind, logged_bind. rewrite Hv.
    rewrite outcome_bind, logged_bind.
    rewrite watershed_surface_unsupported by assumption. simpl.
    rewrite app_nil_r.
    split; [reflexivity|].
    split; intros [H|H]; try discriminate; auto.
Qed.

Lemma unsupported_mode_raises_witness :
  outcome (separate_neighboring_objects Examples.plain_kernels
             Examples.intensity_gradient_settings Examples.two_peaks
             Examples.all_valid_1x3 Examples.one_blob 1 0.5%Q)
  = Raise (NotImplementedError "Watershed method Gradient is not implemented").
Proof.
  refine (proj1 (proj2 (proj2 (unsupported_mode_raises Examples.plain_kernels
             Examples.intensity_gradient_settings Examples.two_peaks
             Examples.all_valid_1x3 Examples.one_blob 1 0.5%Q)) _ _ _ _)).
  - discriminate.
  - discriminate.
  - left. reflexivity.
  - intros [H | [H | H]]; discriminate.
Defined.

(** C7 as stated fails when the other mode is None: with the unclumping
    mode "Texture" and the dividing-line mode None no error is raised and
    the input labeling is returned. *)
Lemma unsupported_unclump_with_none_returns :
  ~ supported_unclump (unclump_method Examples.texture_none_settings)
  /\ separate_neighboring_objects Examples.plain_kernels
       Examples.texture_none_settings Examples.two_peaks
       Examples.all_valid_1x3 Examples.one_blob 1 0.5%Q
     = ([], Ok (Examples.one_blob, 1, 7%Q)).
Proof.
  split.
  - intros [H | [H | [H | H]]]; discriminate.
  - reflexivity.
Qed.

(** ** Seed markers *)

(** In the Intensity mode the maxima image does not depend on the threshold:
    the thresholded copy is computed and then not used. *)
Lemma find_maxima_ignores_threshold (K : Kernels) (self : settings)
      (image : farray) (mask : barray) (labeled_image : iarray)
      (blurred_image : farray) (t1 t2 : Q) (maxima_mask : barray) :
  unclump_method self = UN_INTENSITY ->
  find_maxima K self image mask labeled_image blurred_image t1 maxima_mask
  = find_maxima K self image mask labeled_image blurred_image t2 maxima_mask.
Proof.
  intros E. unfold find_maxima. rewrite E. reflexivity.
Qed.

(** The labeling [one_blob] is what [run] computes from [two_peaks] under the
    per-pixel threshold [adaptive_threshold] (lines 618-621). *)
Lemma two_peaks_foreground :
  let blurred_image :=
    smooth_image Examples.plain_kernels Examples.peaks_settings
                 Examples.two_peaks Examples.all_valid_1x3 1%Q in
  label (gmap2 andb
           (gmap2 (fun b t => Qle_bool t b) blurred_image
                  Examples.adaptive_threshold)
           Examples.all_valid_1x3)
  = (Examples.one_blob, 1).
Proof. vm_compute. reflexivity. Qed.

(** C1: on the image [0.2; 0.1; 0.9] with the threshold 0.5 the smoothed
    image is the image itself, the Intensity maxima keep the marker 0.2 at
    column 0 although 0.2 is below the threshold, and two objects are
    returned. *)
Theorem intensity_maxima_keep_dim_peak :
  let self := Examples.peaks_settings in
  let image := Examples.two_peaks in
  let mask := Examples.all_valid_1x3 in
  let blurred_image :=
    smooth_image Examples.plain_kernels self image mask (unclump_sigma self) in
  blurred_image = image
  /\ outcome (find_maxima Examples.plain_kernels self image mask
                Examples.one_blob blurred_image 0.5%Q
                (strel_disk (effective_maxima_suppression_size self - 0.5)))
     = Ok ([[0.2; 0; 0.9]]%Q, None)
  /\ pixel blurred_image 0 0 = Some 0.2%Q
  /\ (0.2 < 0.5)%Q
  /\ exists watershed_boundaries,
      outcome (separate_neighboring_objects Examples.plain_kernels self image
                 mask Examples.one_blob 1 0.5%Q)
      = Ok (watershed_boundaries, 2, 2%Q).
Proof.
  cbv zeta.
  split; [reflexivity|].
  split; [vm_compute; reflexivity|].
  split; [reflexivity|].
  split; [reflexivity|].
  eexists. vm_compute. reflexivity.
Qed.

Lemma get_maxima_on_foreground (K : Kernels) (image : farray)
      (labeled_image : iarray) (maxima_mask : barray) (factor : Q)
      (r c : nat) (v : Q) :
  pixel (get_maxima K image labeled_image maxima_mask factor) r c = Some v ->
  (0 < v)%Q ->
  exists l, pixel labeled_image r c = Some l /\ l <> 0.
Proof.
  unfold get_maxima.
  match goal with
  | |- context [let '(b, m) := ?p in _] => destruct p as [b m]
  end.
  unfold set_where at 1. rewrite pixel_gmap2, pixel_gmap.
  intros H Hv.
  match type of H with
  | match ?p with _ => _ end = _ => destruct p as [x|]; [|discriminate]
  end.
  destruct (pixel labeled_image r c) as [l|]; [|discriminate].
  exists l. split; [reflexivity|].
  intros ->. inversion H; subst v. now apply Qlt_irrefl in Hv.
Qed.

Lemma find_maxima_on_foreground (K : Kernels) (self : settings)
      (image : farray) (mask : barray) (labeled_image : iarray)
      (blurred_image : farray) (threshold : Q) (maxima_mask : barray)
      (maxima_image : farray) (d : option farray) :
  outcome (find_maxima K self image mask labeled_image blurred_image
                       threshold maxima_mask)
  = Ok (maxima_image, d) ->
  forall (r c : nat) (v : Q),
    pixel maxima_image r c = Some v -> (0 < v)%Q ->
    exists l, pixel labeled_image r c = Some l /\ l <> 0.
Proof.
  unfold find_maxima. intros H r c v Hp Hv.
  destruct (unclump_method self =? UN_LOG)%string;
    [|destruct (unclump_method self =? UN_INTENSITY)%string;
      [|destruct (unclump_method self =? UN_SHAPE)%string]];
    simpl in H; try discriminate; inversion H; subst maxima_image;
    eapply get_maxima_on_foreground; eauto.
Qed.

(** C8 (amended): whenever unclumping runs and returns, the object count it
    returns is the number of 8-connected clusters of the seed markers (the
    positive pixels of the maxima image), and every seed marker lies on a
    foreground pixel of the pre-unclump labeling. *)
Theorem seed_markers_lie_on_foreground (K : Kernels) (self : settings)
        (image : farray) (mask : barray) (labeled_image : iarray)
        (object_count : Z) (threshold : Q)
        (watershed_boundaries : iarray) (seed_count : Z) (size : Q) :
  unclump_method self <> UN_NONE ->
  watershed_method self <> WA_NONE ->
  outcome (separate_neighboring_objects K self image mask labeled_image
                                        object_count threshold)
  = Ok (watershed_boundaries, seed_count, size) ->
  exists maxima_image d,
    outcome (find_maxima K self image mask labeled_image
               (smooth_image K self image mask (unclump_sigma self)) threshold
               (strel_disk (effective_maxima_suppression_size self - 0.5)))
    = Ok (maxima_image, d)
    /\ seed_count = snd (label (gmap (Qltb 0) maxima_image))
    /\ forall (r c : nat) (v : Q),
        pixel maxima_image r c = Some v -> (0 < v)%Q ->
        exists l, pixel labeled_image r c = Some l /\ l <> 0.
Proof.
  intros Hu Hw H. unfold separate_neighboring_objects in H.
  destruct (String.eqb_spec (unclump_method self) UN_NONE); [contradiction|].
  destruct (String.eqb_spec (watershed_method self) WA_NONE); [contradiction|].
  simpl orb in H. cbv iota in H.
  apply bind_Ok in H. destruct H as (blurred & Hb & H).
  change (Ok (smooth_image K self image mask (unclump_sigma self)) = Ok blurred)
    in Hb.
  assert (Eb : blurred = smooth_image K self image mask (unclump_sigma self))
    by congruence.
  subst blurred. clear Hb.
  apply bind_Ok in H. destruct H as ([maxima d] & Hm & H).
  apply bind_Ok in H. destruct H as (surface & _ & H).
  apply bind_Ok in H. destruct H as ([labeled_maxima count] & Hl & H).
  apply bind_Ok in H. destruct H as (wb & _ & H).
  change (Ok (label (gmap (Qltb 0) maxima)) = Ok (labeled_maxima, count)) in Hl.
  assert (El : label (gmap (Qltb 0) maxima) = (labeled_maxima, count))
    by congruence.
  exists maxima, d. split; [exact Hm|]. split.
  - rewrite El. unfold ret, outcome in H. cbn [snd] in *. congruence.
  - eapply find_maxima_on_foreground; eauto.
Qed.

Lemma seed_markers_lie_on_foreground_witness :
  exists maxima_image d,
    outcome (find_maxima Examples.plain_kernels Examples.peaks_settings
               Examples.bright_peaks Examples.all_valid_1x3 Examples.one_blob
               (smooth_image Examples.plain_kernels Examples.peaks_settings
                  Examples.bright_peaks Examples.all_valid_1x3
                  (unclump_sigma Examples.peaks_settings)) 0.5%Q
               (strel_disk
                  (effective_maxima_suppression_size Examples.peaks_settings
                   - 0.5)))
    = Ok (maxima_image, d)
    /\ 2 = snd (label (gmap (Qltb 0) maxima_image))
    /\ forall (r c : nat) (v : Q),
        pixel maxima_image r c = Some v -> (0 < v)%Q ->
        exists l, pixel Examples.one_blob r c = Some l /\ l <> 0.
Proof.
  apply (seed_markers_lie_on_foreground Examples.plain_kernels
           Examples.peaks_settings Examples.bright_peaks
           Examples.all_valid_1x3 Examples.one_blob 1 0.5%Q [[1; 0; 2]] 2 2%Q).
  - discriminate.
  - discriminate.
  - vm_compute. reflexivity.
Defined.

(** C8 as stated fails: the blob [0.9; 0.6; 0.8] is one connected foreground
    component and carries two seed clusters, both above the threshold. *)
Lemma two_seed_clusters_in_one_component :
  exists maxima_image,
    outcome (find_maxima Examples.plain_kernels Examples.peaks_settings
               Examples.bright_peaks Examples.all_valid_1x3 Examples.one_blob
               Examples.bright_peaks 0.5%Q (strel_disk 1.5))
    = Ok (maxima_image, None)
    /\ snd (label (gmap (Qltb 0) maxima_image)) = 2
    /\ snd (label (gmap (fun l => negb (l =? 0)) Examples.one_blob)) = 1
    /\ ~ (2 <= 1).
Proof.
  eexists. split; [vm_compute; reflexivity|].
  split; [vm_compute; reflexivity|].
  split; [vm_compute; reflexivity|lia].
Qed.

(** ** Size exclusion *)

Lemma length_arange (lo hi : Z) : length (arange lo hi) = Z.to_nat (hi - lo).
Proof. unfold arange. now rewrite length_map, length_seq. Qed.

Lemma nth_error_arange (lo hi : Z) (k : nat) :
  (k < Z.to_nat (hi - lo))%nat ->
  nth_error (arange lo hi) k = Some (lo + Z.of_nat k).
Proof.
  intros H. unfold arange. rewrite nth_error_map.
  rewrite (nth_error_nth' _ 0%nat) by now rewrite length_seq.
  now rewrite seq_nth.
Qed.

Lemma np_index_tabulated {A : Type} (f : Z -> A) (m i : Z) :
  0 <= i < m ->
  np_index (map f (arange 0 m)) i = Some (f i).
Proof.
  intros H. unfold np_index.
  rewrite length_map, length_arange.
  replace (Z.of_nat (Z.to_nat (m - 0))) with m by lia.
  destruct (Z.leb_spec 0 i); [|lia].
  destruct (Z.ltb_spec i m); [|lia].
  simpl. rewrite nth_error_map, nth_error_arange by lia.
  simpl. f_equal. f_equal. lia.
Qed.


Lemma Qltb_ge (x y : Q) : Qltb x y = false <-> (y <= x)%Q.
Proof.
  unfold Qltb. rewrite negb_false_iff. apply Qle_bool_iff.
Qed.

(** The two maps [filter_on_size] returns, pixel by pixel. *)
Lemma filter_on_size_enabled (self : settings) (labeled_image : iarray)
      (object_count : Z) :
  (forall r c l, pixel labeled_image r c = Some l -> 0 <= l <= object_count) ->
  exclude_size self = true ->
  0 < object_count ->
  let small l :=
    if Qltb (inject_Z (object_area labeled_image l)) (min_allowed_area self)
    then 0 else l in
  let kept l :=
    if Qltb (max_allowed_area self) (inject_Z (object_area labeled_image l))
    then 0 else small l in
  filter_on_size self labeled_image object_count
  = ([], Ok (gmap kept labeled_image, gmap small labeled_image)).
Proof.
  intros Hrange He Hn small kept. unfold filter_on_size.
  rewrite He. destruct (Z.ltb_spec 0 object_count); [|lia]. simpl andb. cbv iota.
  rewrite (np_take_total _ _ (object_area labeled_image)).
  - simpl. rewrite !gmap_gmap, set_where_gmap.
    unfold set_where. rewrite gmap2_gmap_gmap. reflexivity.
  - intros r c l Hp. unfold label_areas, object_area.
    apply (np_index_tabulated (fun k => count_eq k (flatten labeled_image))).
    specialize (Hrange r c l Hp). lia.
Qed.



(** ** Border exclusion *)












Lemma pixel_bounds {A : Type} (g : grid A) (r c : nat) (x : A) :
  rectangular g -> pixel g r c = Some x ->
  (r < fst (shape g))%nat /\ (c < snd (shape g))%nat.
Proof.
  intros Hrect Hp. unfold pixel in Hp.
  destruct (nth_error g r) as [row|] eqn:Hr; [|discriminate].
  split.
  - apply nth_error_Some. simpl. congruence.
  - rewrite <- (Hrect row) by eauto using nth_error_In.
    apply nth_error_Some. congruence.
Qed.



Lemma at_or_pixel {A : Type} (d : A) (g : grid A) (r c : nat) (x : A) :
  pixel g r c = Some x -> at_or d g (Z.of_nat r) (Z.of_nat c) = x.
Proof.
  intros H. unfold at_or.
  destruct (Z.ltb_spec (Z.of_nat r) 0); [lia|].
  destruct (Z.ltb_spec (Z.of_nat c) 0); [lia|].
  simpl. now rewrite !Nat2Z.id, H.
Qed.






(** ** The exclusion maps *)

Lemma gmap_id {A : Type} (g : grid A) : gmap (fun x => x) g = g.
Proof.
  unfold gmap. rewrite <- (map_id g) at 2.
  apply map_ext. intros row. apply map_id.
Qed.

Lemma per_label_refl (g : iarray) : per_label g g.
Proof. exists (fun _ => false). now rewrite gmap_id. Qed.

Lemma discard_counted_per_label (g : iarray) (histogram : list Z) (out : iarray) :
  outcome (discard_counted g histogram) = Ok out -> per_label g out.
Proof.
  unfold discard_counted. intros H.
  destruct (np_take histogram g) as [hi|] eqn:E; [|discriminate].
  simpl in H. inversion H; subst out.
  apply (np_take_Some 0) in E. subst hi.
  rewrite gmap_gmap, set_where_gmap. eexists. reflexivity.
Qed.

Lemma filter_on_border_per_label (self : settings) (image : cpimage)
      (g out : iarray) :
  outcome (filter_on_border self image g) = Ok out -> per_label g out.
Proof.
  unfold filter_on_border.
  destruct (exclude_border_objects self);
    [|intros H; inversion H; apply per_label_refl].
  destruct (shape g) as [nr nc].
  destruct ((nr =? 0)%nat || (nc =? 0)%nat); [discriminate|].
  intros H. apply bind_Ok in H. destruct H as (h & _ & H).
  destruct (any_object h); [now apply discard_counted_per_label in H|].
  destruct (has_mask image);
    [|inversion H; apply per_label_refl].
  apply bind_Ok in H. destruct H as (eroded & _ & H).
  apply bind_Ok in H. destruct H as (h2 & _ & H).
  destruct (any_object h2); [now apply discard_counted_per_label in H|].
  inversion H; apply per_label_refl.
Qed.

Lemma filter_on_size_per_label (self : settings) (g out small : iarray)
      (object_count : Z) :
  outcome (filter_on_size self g object_count) = Ok (out, small) ->
  per_label g out.
Proof.
  unfold filter_on_size.
  destruct (exclude_size self && (0 <? object_count));
    [|intros H; inversion H; apply per_label_refl].
  intros H.
  destruct (np_take (label_areas g object_count) g) as [ai|] eqn:E;
    [|discriminate].
  simpl in H. inversion H; subst out small.
  apply (np_take_Some 0) in E. subst ai.
  set (area := fun i => match np_index (label_areas g object_count) i with
                        | Some x => x
                        | None => 0
                        end).
  rewrite !gmap_gmap, set_where_gmap. unfold set_where.
  rewrite gmap2_gmap_gmap.
  exists (fun l => Qltb (max_allowed_area self) (inject_Z (area l))
                   || Qltb (inject_Z (area l)) (min_allowed_area self)).
  apply gmap_ext. intros l.
  destruct (Qltb (max_allowed_area self) (inject_Z (area l))),
           (Qltb (inject_Z (area l)) (min_allowed_area self));
    reflexivity.
Qed.

Lemma In_insert_label (x l : Z) (ls : list Z) :
  In x (insert_label l ls) <-> x = l \/ In x ls.
Proof.
  induction ls as [|y ys IH]; simpl.
  - intuition.
  - destruct (Z.ltb_spec l y); simpl; [intuition|].
    destruct (Z.eqb_spec l y); simpl; [subst; intuition|].
    rewrite IH. intuition.
Qed.

Lemma In_unique_labels (lab : iarray) (l : Z) :
  In l (unique_labels lab) <-> In l (flatten lab) /\ l <> 0.
Proof.
  unfold unique_labels.
  induction (flatten lab) as [|x xs IH]; simpl; [tauto|].
  destruct (Z.eqb_spec x 0) as [->|Hx]; simpl.
  - rewrite IH. intuition congruence.
  - rewrite In_insert_label, IH. intuition congruence.
Qed.

Lemma rank_of_pos (l : Z) (ls : list Z) :
  0 <= rank_of l ls /\ (In l ls -> 0 < rank_of l ls).
Proof.
  induction ls as [|x xs [IH0 IH]]; simpl; [intuition lia|].
  destruct (Z.eqb_spec l x) as [->|Hne]; [intuition lia|].
  destruct (rank_of l xs) as [|k|k] eqn:E; split; try lia.
  intros [H|H]; [congruence|]. specialize (IH H). lia.
Qed.

(** Relabeling keeps the background and the foreground apart. *)
Lemma relabel_pixel (lab : iarray) (r c : nat) (l : Z) :
  pixel lab r c = Some l ->
  exists l', pixel (fst (relabel lab)) r c = Some l' /\ (l' = 0 <-> l = 0).
Proof.
  intros Hp. unfold relabel. simpl. rewrite pixel_gmap, Hp. simpl.
  eexists. split; [reflexivity|].
  destruct (Z.eqb_spec l 0) as [->|Hne]; [tauto|].
  destruct (rank_of_pos l (unique_labels lab)) as [_ Hpos].
  assert (0 < rank_of l (unique_labels lab)).
  { apply Hpos. apply In_unique_labels. eauto using pixel_In. }
  split; [lia|contradiction].
Qed.

Lemma relabel_pixel_positive (lab : iarray) (r c : nat) (l : Z) :
  pixel lab r c = Some l -> l <> 0 ->
  exists l', pixel (fst (relabel lab)) r c = Some l' /\ 0 < l'.
Proof.
  intros Hp Hl. unfold relabel. simpl. rewrite pixel_gmap, Hp. simpl.
  eexists. split; [reflexivity|].
  destruct (Z.eqb_spec l 0) as [E|_]; [contradiction|].
  apply rank_of_pos. apply In_unique_labels. eauto using pixel_In.
Qed.

Lemma rectangular_gmap {A B : Type} (f : A -> B) (g : grid A) :
  rectangular g -> rectangular (gmap f g).
Proof.
  unfold rectangular, gmap, shape. simpl. intros H row Hrow.
  apply in_map_iff in Hrow. destruct Hrow as (row0 & <- & Hrow0).
  rewrite length_map, (H row0 Hrow0).
  destruct g as [|first g]; simpl; [reflexivity|now rewrite length_map].
Qed.

Lemma rectangular_tabulate {A : Type} (nr nc : nat) (f : nat -> nat -> A) :
  rectangular (tabulate nr nc f).
Proof.
  unfold rectangular, tabulate, shape. simpl. intros row Hrow.
  apply in_map_iff in Hrow. destruct Hrow as (r & <- & Hr).
  rewrite length_map, length_seq.
  destruct nr as [|nr]; [destruct Hr|].
  simpl. now rewrite length_map, length_seq.
Qed.

(** Filling holes leaves the pixels of the objects as they are. *)
Lemma fill_keeps_foreground (lab : iarray) (r c : nat) (l : Z) :
  rectangular lab -> pixel lab r c = Some l -> l <> 0 ->
  pixel (fill_labeled_holes lab) r c = Some l.
Proof.
  intros Hrect Hp Hl. unfold fill_labeled_holes.
  destruct (pixel_bounds lab r c l Hrect Hp) as [Hr Hc].
  rewrite pixel_tabulate by assumption. cbv zeta.
  rewrite (at_or_pixel 0 lab r c l Hp).
  destruct (Z.eqb_spec l 0); [contradiction|reflexivity].
Qed.

Lemma filter_and_relabel_unedited (K : Kernels) (self : settings)
      (image : cpimage) (g : iarray) (object_count : Z) (mss : Q)
      (seg : segmentation) :
  outcome (filter_and_relabel K self image g object_count mss) = Ok seg ->
  unedited_segmented seg = g.
Proof.
  intros H. unfold filter_and_relabel in H.
  apply bind_Ok in H. destruct H as (lab1 & _ & H).
  apply bind_Ok in H. destruct H as ([lab2 small] & _ & H).
  apply bind_Ok in H. destruct H as ([lab3 n3] & _ & H).
  apply bind_Ok in H. destruct H as (lab4 & _ & H).
  simpl in H. inversion H. reflexivity.
Qed.

(** The maps [filter_and_relabel] returns: the two filters act label by
    label, through [border] and [size]. *)
Lemma filter_and_relabel_maps (K : Kernels) (self : settings)
      (image : cpimage) (g : iarray) (object_count : Z) (mss : Q)
      (seg : segmentation) :
  outcome (filter_and_relabel K self image g object_count mss) = Ok seg ->
  exists border size : Z -> Z,
    (forall u, border u = 0 \/ border u = u)
    /\ (forall u, size u = 0 \/ size u = border u)
    /\ border_excluded_labeled_image seg
       = gmap (fun u => if 0 <? border u then 0 else u) g
    /\ size_excluded_labeled_image seg
       = gmap (fun u => if 0 <? size u then 0 else border u) g
    /\ final_object_count seg = snd (relabel (gmap size g))
    /\ segmented seg
       = if fill_holes self
         then fill_labeled_holes (fst (relabel (gmap size g)))
         else fst (relabel (gmap size g)).
Proof.
  intros H. unfold filter_and_relabel in H.
  apply bind_Ok in H. destruct H as (lab1 & Hb & H).
  apply bind_Ok in H. destruct H as ([lab2 small] & Hs & H).
  apply bind_Ok in H. destruct H as ([lab3 n3] & Hr & H).
  apply bind_Ok in H. destruct H as (lab4 & Hfill & H).
  change (Ok (relabel lab2) = Ok (lab3, n3)) in Hr.
  assert (Hrel : relabel lab2 = (lab3, n3)) by congruence.
  assert (Hlab3 : lab3 = fst (relabel lab2)) by now rewrite Hrel.
  assert (Hn3 : n3 = snd (relabel lab2)) by now rewrite Hrel.
  clear Hr Hrel. subst lab3 n3.
  assert (Hlab4 : lab4 = if fill_holes self
                         then fill_labeled_holes (fst (relabel lab2))
                         else fst (relabel lab2)).
  { unfold fill_if_wanted in Hfill.
    destruct (fill_holes self); cbn [outcome running ret snd] in Hfill;
      congruence. }
  clear Hfill. simpl in H. inversion H; subst seg; clear H.
  cbn [segmented size_excluded_labeled_image border_excluded_labeled_image
       final_object_count].
  apply filter_on_border_per_label in Hb. destruct Hb as [z1 Hlab1].
  apply filter_on_size_per_label in Hs. destruct Hs as [z2 Hlab2].
  exists (fun u => if z1 u then 0 else u).
  exists (fun u => if z2 (if z1 u then 0 else u) then 0
                   else if z1 u then 0 else u).
  assert (E2 : lab2 = gmap (fun u => if z2 (if z1 u then 0 else u) then 0
                                     else if z1 u then 0 else u) g)
    by (rewrite Hlab2, Hlab1; apply gmap_gmap).
  split; [intros u; destruct (z1 u); auto|].
  split; [intros u; destruct (z2 _); auto|].
  split; [now rewrite Hlab1, gmap_gmap, set_where_gmap|].
  split.
  - rewrite Hlab2, gmap_gmap, set_where_gmap, Hlab1. apply gmap_gmap.
  - now rewrite <- E2, Hlab4.
Qed.

(** The exclusion maps of [filter_and_relabel] at a pixel of an unedited
    map whose label is not negative. *)
Lemma filter_and_relabel_partition (K : Kernels) (self : settings)
      (image : cpimage) (g : iarray) (object_count : Z) (mss : Q)
      (seg : segmentation) :
  outcome (filter_and_relabel K self image g object_count mss) = Ok seg ->
  (forall r c u,
      pixel g r c = Some u -> 0 <= u ->
      exists s b,
        pixel (size_excluded_labeled_image seg) r c = Some s
        /\ pixel (border_excluded_labeled_image seg) r c = Some b
        /\ excluded_apart u s b
        /\ (fill_holes self = false ->
            exists f,
              pixel (segmented seg) r c = Some f /\ partitioned u f s b)
        /\ (rectangular g -> u <> 0 -> s = 0 -> b = 0 ->
            exists f, pixel (segmented seg) r c = Some f /\ f <> 0))
  /\ (forall r c,
        pixel g r c = None ->
        pixel (size_excluded_labeled_image seg) r c = None
        /\ pixel (border_excluded_labeled_image seg) r c = None
        /\ (fill_holes self = false -> pixel (segmented seg) r c = None)).
Proof.
  intros H.
  destruct (filter_and_relabel_maps K self image g object_count mss seg H)
    as (border & size & Hborder & Hsize & Eb & Es & _ & Ef).
  rewrite Eb, Es, Ef. clear Eb Es Ef H. split.
  - intros r c u Hp Hu.
    rewrite !pixel_gmap, Hp. cbn [option_map].
    do 2 eexists. split; [reflexivity|]. split; [reflexivity|].
    assert (Hlab2 : pixel (gmap size g) r c = Some (size u))
      by (rewrite pixel_gmap, Hp; reflexivity).
    destruct (relabel_pixel _ _ _ _ Hlab2) as (f & Hf & Hf0).
    specialize (Hborder u). specialize (Hsize u).
    split; [|split].
    + unfold excluded_apart.
      destruct (Z.ltb_spec 0 (size u)), (Z.ltb_spec 0 (border u));
        repeat apply conj; try (now left); try (now right); lia.
    + intros Hfill. rewrite Hfill. exists f. split; [exact Hf|].
      unfold partitioned.
      destruct (Z.ltb_spec 0 (size u)), (Z.ltb_spec 0 (border u));
        split; intros Hu0; try lia;
        try (repeat apply conj; lia);
        try (left; repeat apply conj; lia);
        try (right; left; repeat apply conj; lia);
        try (right; right; repeat apply conj; lia).
    + intros Hrect Hu0 Hs0 Hb0.
      assert (Hpos : size u <> 0).
      { destruct (Z.ltb_spec 0 (size u)), (Z.ltb_spec 0 (border u)); lia. }
      destruct (fill_holes self).
      * exists f. split; [|tauto].
        apply fill_keeps_foreground; [|exact Hf|tauto].
        unfold relabel. cbn [fst]. now do 2 apply rectangular_gmap.
      * exists f. split; [exact Hf|tauto].
  - intros r c Hp. rewrite !pixel_gmap, Hp. cbn [option_map].
    split; [reflexivity|]. split; [reflexivity|].
    intros Hfill. rewrite Hfill. unfold relabel. cbn [fst].
    now rewrite !pixel_gmap, Hp.
Qed.

Lemma pixel_forallb {A : Type} (p : A -> bool) (g : grid A) (r c : nat) (x : A) :
  forallb (forallb p) g = true -> pixel g r c = Some x -> p x = true.
Proof.
  intros H Hp. unfold pixel in Hp.
  destruct (nth_error g r) as [row|] eqn:Hr; [|discriminate].
  rewrite forallb_forall in H.
  specialize (H row (nth_error_In _ _ Hr)).
  rewrite forallb_forall in H. eauto using nth_error_In.
Qed.


Lemma within_countb_sound (g : iarray) (n : Z) :
  within_countb g n = true ->
  forall r c l, pixel g r c = Some l -> 0 <= l <= n.
Proof.
  intros H r c l Hp. apply (pixel_forallb _ _ _ _ _ H) in Hp. lia.
Qed.

(** C2 (amended): on every run that returns, at every pixel whose unedited
    label is not negative, the size-excluded and the border-excluded map
    hold 0 or the unedited label and are not both nonzero (so both are zero
    on the unedited background).  Without hole filling the final map
    completes the partition: on the unedited background all three maps are
    zero, and on each unedited foreground pixel exactly one of them is
    nonzero.  With or without hole filling, on a rectangular map an unedited
    foreground pixel that neither excluded map holds is nonzero in the final
    map, so the three maps cover the unedited foreground.  The excluded maps
    have the shape of the unedited map, and so has the final map without
    hole filling. *)
Theorem exclusion_maps_partition (K : Kernels) (self : settings)
        (image : cpimage) (local_threshold : farray) (global_threshold : Q)
        (seg : segmentation) :
  outcome (run K self image local_threshold global_threshold) = Ok seg ->
  (forall r c u,
      pixel (unedited_segmented seg) r c = Some u -> 0 <= u ->
      exists s b,
        pixel (size_excluded_labeled_image seg) r c = Some s
        /\ pixel (border_excluded_labeled_image seg) r c = Some b
        /\ excluded_apart u s b
        /\ (fill_holes self = false ->
            exists f,
              pixel (segmented seg) r c = Some f /\ partitioned u f s b)
        /\ (rectangular (unedited_segmented seg) ->
            u <> 0 -> s = 0 -> b = 0 ->
            exists f, pixel (segmented seg) r c = Some f /\ f <> 0))
  /\ (forall r c,
        pixel (unedited_segmented seg) r c = None ->
        pixel (size_excluded_labeled_image seg) r c = None
        /\ pixel (border_excluded_labeled_image seg) r c = None
        /\ (fill_holes self = false -> pixel (segmented seg) r c = None)).
Proof.
  intros H. unfold run in H.
  apply bind_Ok in H. destruct H as (blurred & _ & H).
  apply bind_Ok in H. destruct H as ([lab0 n0] & _ & H).
  apply bind_Ok in H. destruct H as (lab1 & _ & H).
  apply bind_Ok in H. destruct H as ([[lab2 n2] mss] & _ & H).
  pose proof (filter_and_relabel_unedited K self image lab2 n2 mss seg H)
    as Hun.
  rewrite Hun.
  now apply (filter_and_relabel_partition K self image lab2 n2 mss seg).
Qed.

Lemma exclusion_maps_partition_witness :
  exists s b,
    pixel (size_excluded_labeled_image Examples.ring_result) 2 2 = Some s
    /\ pixel (border_excluded_labeled_image Examples.ring_result) 2 2 = Some b
    /\ excluded_apart 2 s b
    /\ (fill_holes (Examples.ring_settings false) = false ->
        exists f,
          pixel (segmented Examples.ring_result) 2 2 = Some f
          /\ partitioned 2 f s b)
    /\ (rectangular (unedited_segmented Examples.ring_result) ->
        2 <> 0 -> s = 0 -> b = 0 ->
        exists f, pixel (segmented Examples.ring_result) 2 2 = Some f
                  /\ f <> 0).
Proof.
  refine (proj1 (exclusion_maps_partition Examples.plain_kernels
                   (Examples.ring_settings false) Examples.ring_image
                   Examples.half_5x5 0.5%Q Examples.ring_result _)
                2%nat 2%nat 2 eq_refl _).
  - vm_compute. reflexivity.
  - lia.
Defined.

(** C2 as stated fails when holes are filled: on the ring around a dot the
    dot is removed for its size and the second filling gives its pixels, and
    the background between ring and dot, to the ring; the pixel (2,2) is
    nonzero in the final and in the size-excluded map, and the pixel (1,1)
    is final foreground although it is background in the unedited map. *)
Lemma refilled_hole_overlaps_size_excluded :
  exists seg,
    outcome (Examples.ring_run true) = Ok seg
    /\ pixel (segmented seg) 2 2 = Some 1
    /\ pixel (size_excluded_labeled_image seg) 2 2 = Some 2
    /\ pixel (segmented seg) 1 1 = Some 1
    /\ pixel (unedited_segmented seg) 1 1 = Some 0.
Proof.
  eexists. split; [vm_compute; reflexivity|].
  repeat split.
Qed.

(** The restriction to labels that are not negative is needed: the
    exclusion maps are cleared where the filtered labels are [> 0], so a
    negative label that passes both filters stays in all three maps. *)
Lemma negative_label_in_all_three_maps :
  exists seg,
    outcome (filter_and_relabel Examples.plain_kernels
               (Examples.manual UN_NONE WA_NONE 0 7 2 40 false false false)
               {| pixel_data := [[0.5%Q]]; mask := [[true]];
                  has_mask := false |}
               [[-1]] 1 7%Q) = Ok seg
    /\ pixel (segmented seg) 0 0 = Some 1
    /\ pixel (size_excluded_labeled_image seg) 0 0 = Some (-1)
    /\ pixel (border_excluded_labeled_image seg) 0 0 = Some (-1).
Proof.
  eexists. split; [vm_compute; reflexivity|].
  repeat split.
Qed.

(** The labels that unclumping returns are the negated entries of a 16-bit
    array whose markers are negated labels (lines 859-869): a marker from a
    label up to 32767 comes back as that label, and the marker -32768 comes
    back negative. *)
Lemma negated_marker_round_trip (l : Z) :
  (1 <= l <= 32767 -> int16 (- int16 (- l)) = l)
  /\ int16 (- int16 (- 32768)) = -32768.
Proof.
  split; [|reflexivity].
  intros Hl. unfold int16.
  rewrite (Z.mod_small (- l + 32768)) by lia.
  rewrite Z.mod_small by lia. lia.
Qed.



(** ** The diameter statistics *)

Section DiameterStatistics.

Import Reals Lra.
Import Statistics.
Local Open Scope R_scope.

Lemma sqrt_4 : sqrt 4 = 2.
Proof.
  replace 4 with (2 * 2) by lra. apply sqrt_square. lra.
Qed.

Lemma statistic_differs_at_4 : diameter_statistic 4 <> equivalent_diameter 4.
Proof.
  unfold diameter_statistic, equivalent_diameter.
  rewrite sqrt_4.
  assert (Hpi : 2 < PI) by (pose proof PI2_1; lra).
  assert (Hy : 0 < / PI) by (apply Rinv_0_lt_compat; lra).
  assert (Hy1 : / PI < 1).
  { rewrite <- Rinv_1. apply Rinv_lt_contravar; lra. }
  assert (Hx : sqrt (4 / PI) * sqrt (4 / PI) = 4 / PI).
  { apply sqrt_sqrt. unfold Rdiv. nra. }
  unfold Rdiv in *. set (y := / PI) in *. set (x := sqrt (4 * y)) in *.
  intros H. nra.
Qed.

(** C4: on a final label map with one object of four pixels both rank areas
    are 4 and the reported statistic is 2·sqrt(4)/π = 4/π, which is not the
    equivalent diameter 2·sqrt(4/π). *)
Theorem reported_diameter_is_not_equivalent_diameter :
  low_rank_area Examples.square_object 1 = 4%Z
  /\ high_rank_area Examples.square_object 1 = 4%Z
  /\ low_diameter Examples.square_object 1 = 4 / PI
  /\ high_diameter Examples.square_object 1 = 4 / PI
  /\ low_diameter Examples.square_object 1 <> equivalent_diameter 4
  /\ high_diameter Examples.square_object 1 <> equivalent_diameter 4.
Proof.
  assert (El : low_rank_area Examples.square_object 1 = 4%Z) by reflexivity.
  assert (Eh : high_rank_area Examples.square_object 1 = 4%Z) by reflexivity.
  unfold low_diameter, high_diameter. rewrite El, Eh.
  repeat split; try apply statistic_differs_at_4;
    unfold diameter_statistic; rewrite sqrt_4; lra.
Qed.

End DiameterStatistics.

(** * Further properties of the module *)

(** ** Upgrading saved settings *)

Lemma upgrade_revisions_fixed (V : Vocabulary) (l : list string) (r : Z) :
  r <> 1 -> r <> 2 -> r <> 3 -> upgrade_revisions V l r = (l, r).
Proof.
  intros H1 H2 H3. unfold upgrade_revisions.
  destruct (Z.eqb_spec r 1); [contradiction|].
  destruct (Z.eqb_spec r 2); [contradiction|].
  destruct (Z.eqb_spec r 3); [contradiction|]. reflexivity.
Qed.

Lemma upgrade_revisions_final (V : Vocabulary) (l : list string) (r : Z) :
  snd (upgrade_revisions V l r) <> 1
  /\ snd (upgrade_revisions V l r) <> 2
  /\ snd (upgrade_revisions V l r) <> 3.
Proof.
  unfold upgrade_revisions.
  destruct (Z.eqb_spec r 1) as [->|H1]; simpl; [lia|].
  destruct (Z.eqb_spec r 2) as [->|H2]; simpl; [lia|].
  destruct (Z.eqb_spec r 3) as [->|H3]; simpl; lia.
Qed.

(** Saved values of the revisions 1 to 4 of this module are brought to
    revision 4 by appending values only: 7, 5, 2 or none; the values already
    saved are kept, no list is too short to be upgraded, and the caller's
    list is left as it was. *)
Theorem upgrade_appends_to_revision_4 (V : Vocabulary)
        (setting_values : list string) (revision : Z) :
  1 <= revision <= 4 ->
  exists added,
    upgrade_settings V setting_values revision false
    = ([], Ok {| upgraded_values := setting_values ++ added;
                 upgraded_revision := 4;
                 upgraded_from_matlab := false;
                 caller_values := setting_values |})
    /\ Z.of_nat (length added) = match revision with
                                 | 1 => 7 | 2 => 5 | 3 => 2 | _ => 0
                                 end.
Proof.
  intros H.
  assert (E : revision = 1 \/ revision = 2 \/ revision = 3 \/ revision = 4)
    by lia.
  destruct E as [-> | [-> | [-> | ->]]]; unfold upgrade_settings; simpl.
  - eexists. rewrite <- !app_assoc. split; reflexivity.
  - eexists. rewrite <- !app_assoc. split; reflexivity.
  - eexists. split; reflexivity.
  - exists []. rewrite app_nil_r. split; reflexivity.
Qed.

Lemma upgrade_appends_to_revision_4_witness :
  exists added,
    upgrade_settings Examples.cp_vocabulary Examples.revision_1_values 1 false
    = ([], Ok {| upgraded_values := Examples.revision_1_values ++ added;
                 upgraded_revision := 4;
                 upgraded_from_matlab := false;
                 caller_values := Examples.revision_1_values |})
    /\ Z.of_nat (length added) = 7.
Proof.
  apply (upgrade_appends_to_revision_4 Examples.cp_vocabulary
           Examples.revision_1_values 1).
  lia.
Defined.

(** Values that [upgrade_settings] has returned are returned unchanged when
    they are upgraded again, whatever the revision and the origin of the
    first call were. *)
Theorem upgrade_settings_idempotent (V : Vocabulary)
        (setting_values : list string) (revision : Z) (from_matlab : bool)
        (u : upgraded) :
  outcome (upgrade_settings V setting_values revision from_matlab) = Ok u ->
  upgrade_settings V (upgraded_values u) (upgraded_revision u)
                   (upgraded_from_matlab u)
  = ([], Ok {| upgraded_values := upgraded_values u;
               upgraded_revision := upgraded_revision u;
               upgraded_from_matlab := upgraded_from_matlab u;
               caller_values := upgraded_values u |}).
Proof.
  unfold upgrade_settings at 1. intros H.
  apply bind_Ok in H. destruct H as ([[[nv cv] r] fm] & H1 & H).
  assert (Hr : fm = true /\ r <> 12 \/ fm = false).
  { destruct (Z.eqb_spec revision 12) as [->|Hne], from_matlab; simpl in H1.
    - apply bind_Ok in H1. destruct H1 as ([nv' cv'] & _ & H1).
      inversion H1. now right.
    - inversion H1. now right.
    - inversion H1; subst. left. now split.
    - inversion H1. now right. }
  clear H1.
  destruct Hr as [[-> Hr] | ->]; simpl in H.
  - inversion H; subst u; clear H. unfold upgrade_settings. simpl.
    destruct (Z.eqb_spec r 12); [contradiction|]. reflexivity.
  - destruct (upgrade_revisions V nv r) as [nv' r'] eqn:E.
    inversion H; subst u; clear H. simpl.
    destruct (upgrade_revisions_final V nv r) as (F1 & F2 & F3).
    rewrite E in F1, F2, F3. simpl in F1, F2, F3.
    unfold upgrade_settings. rewrite andb_false_r. simpl.
    rewrite upgrade_revisions_fixed by assumption. reflexivity.
Qed.

Lemma upgrade_settings_idempotent_witness :
  upgrade_settings Examples.cp_vocabulary
    (Examples.revision_1_values
       ++ ["Yes"; ".5"; "Two classes"; "Weighted variance"; "Foreground";
           "Yes"; "5"]%string) 4 false
  = ([], Ok {| upgraded_values :=
                 Examples.revision_1_values
                   ++ ["Yes"; ".5"; "Two classes"; "Weighted variance";
                       "Foreground"; "Yes"; "5"]%string;
               upgraded_revision := 4;
               upgraded_from_matlab := false;
               caller_values :=
                 Examples.revision_1_values
                   ++ ["Yes"; ".5"; "Two classes"; "Weighted variance";
                       "Foreground"; "Yes"; "5"]%string |}).
Proof.
  apply (upgrade_settings_idempotent Examples.cp_vocabulary
           Examples.revision_1_values 1 false
           {| upgraded_values :=
                Examples.revision_1_values
                  ++ ["Yes"; ".5"; "Two classes"; "Weighted variance";
                      "Foreground"; "Yes"; "5"]%string;
              upgraded_revision := 4;
              upgraded_from_matlab := false;
              caller_values := Examples.revision_1_values |}).
  reflexivity.
Defined.

(** Values whose revision the function does not know are handed back as they
    are, without an error: any revision other than 12 that comes from
    Matlab (1, 2 and 3 included), and any revision other than 1, 2 and 3
    that does not. *)
Theorem upgrade_leaves_other_revisions (V : Vocabulary)
        (setting_values : list string) (revision : Z) (from_matlab : bool) :
  (from_matlab = true /\ revision <> 12)
  \/ (from_matlab = false /\ revision <> 1 /\ revision <> 2 /\ revision <> 3) ->
  upgrade_settings V setting_values revision from_matlab
  = ([], Ok {| upgraded_values := setting_values;
               upgraded_revision := revision;
               upgraded_from_matlab := from_matlab;
               caller_values := setting_values |}).
Proof.
  intros [[-> H] | (-> & H1 & H2 & H3)]; unfold upgrade_settings.
  - destruct (Z.eqb_spec revision 12); [contradiction|]. reflexivity.
  - rewrite andb_false_r. simpl.
    rewrite upgrade_revisions_fixed by assumption. reflexivity.
Qed.

Lemma upgrade_leaves_other_revisions_witness :
  upgrade_settings Examples.cp_vocabulary Examples.revision_1_values 1 true
  = ([], Ok {| upgraded_values := Examples.revision_1_values;
               upgraded_revision := 1;
               upgraded_from_matlab := true;
               caller_values := Examples.revision_1_values |}).
Proof.
  apply upgrade_leaves_other_revisions. left. split; [reflexivity|lia].
Defined.

(** A Matlab revision 12 list of fewer than 16 values cannot be translated:
    deleting the value at position 15 is an IndexError. *)
Theorem upgrade_matlab_short_list_raises (V : Vocabulary)
        (setting_values : list string) :
  (length setting_values <= 15)%nat ->
  upgrade_settings V setting_values 12 true = ([], Raise IndexError).
Proof.
  intros H. unfold upgrade_settings, translate_matlab, del_item. simpl andb.
  cbv iota.
  assert (E : (15 <? length (firstn 18 setting_values))%nat = false).
  { apply Nat.ltb_ge. rewrite length_firstn. lia. }
  rewrite E. reflexivity.
Qed.

Lemma upgrade_matlab_short_list_raises_witness :
  upgrade_settings Examples.cp_vocabulary ["OrigBlue"; "Nuclei"]%string 12 true
  = ([], Raise IndexError).
Proof.
  apply upgrade_matlab_short_list_raises. simpl. lia.
Defined.

Ltac split_conditions :=
  repeat (match goal with
          | |- context [if ?b then _ else _] => destruct b eqn:?
          | |- context [match match_percent ?s with _ => _ end] =>
              destruct (match_percent s) eqn:?
          end;
          cbn -[String.eqb match_percent existsb] in *).

(** The translation of a Matlab revision 12 list, value by value. *)
Lemma upgrade_matlab_closed_form (V : Vocabulary)
      (s0 s1 s2 s3 s4 s5 s6 s7 s8 s9 s10 s11 s12 s13 s14 s15 s16 s17 : string)
      (rest : list string) :
  starts_with_dot_percent s9 = false ->
  let sv := s0 :: s1 :: s2 :: s3 :: s4 :: s5 :: s6 :: s7 :: s8 :: s9 :: s10
               :: s11 :: s12 :: s13 :: s14 :: s15 :: s16 :: s17 :: rest in
  let known := existsb (String.eqb s6) (TM_METHODS V) in
  let manual := negb known && parses_as_float V s6 in
  upgrade_settings V sv 12 true
  = ([], Ok {| upgraded_values :=
                 [s0; s1; s2; s3; s4; s5;
                  if known then s6
                  else if parses_as_float V s6 then TM_MANUAL V
                       else TM_BINARY_IMAGE V;
                  s7; s8; s9;
                  if (s10 =? DO_NOT_USE V)%string then UN_NONE else s10;
                  if (s11 =? DO_NOT_USE V)%string then WA_NONE else s11;
                  if (s12 =? AUTOMATIC V)%string then "10"%string else s12;
                  if (s13 =? AUTOMATIC V)%string then "5"%string else s13;
                  s14;
                  if (s16 =? DO_NOT_USE V)%string then "None"%string else s16;
                  s17;
                  if (s12 =? AUTOMATIC V)%string then YES V else NO V;
                  if (s13 =? AUTOMATIC V)%string then YES V else NO V;
                  if manual then s6 else "0.0"%string;
                  if manual then DO_NOT_USE V else s6;
                  if (s16 =? DO_NOT_USE V)%string then NO V else YES V;
                  YES V; ".5"%string;
                  O_TWO_CLASS V; O_WEIGHTED_VARIANCE V; O_FOREGROUND V;
                  YES V; "5"%string];
               upgraded_revision := 4;
               upgraded_from_matlab := false;
               caller_values :=
                 match match_percent s9 with
                 | Some c =>
                     updated sv OBJECT_FRACTION_VAR
                             (if (Ascii.nat_of_ascii c =? 48)%nat
                              then "0.0"%string
                              else ("0.0" ++ String c EmptyString)%string)
                 | None => sv
                 end |}).
Proof.
  intros Hdot sv known manual. subst sv known manual.
  unfold starts_with_dot_percent in Hdot.
  unfold upgrade_settings, translate_matlab, percent_to_fraction.
  cbn -[String.eqb match_percent existsb].
  split_conditions; try discriminate; reflexivity.
Qed.

Lemma upgrade_matlab_dot_percent (V : Vocabulary)
      (s0 s1 s2 s3 s4 s5 s6 s7 s8 s9 s10 s11 s12 s13 s14 s15 s16 s17 : string)
      (rest : list string) :
  starts_with_dot_percent s9 = true ->
  upgrade_settings V
    (s0 :: s1 :: s2 :: s3 :: s4 :: s5 :: s6 :: s7 :: s8 :: s9 :: s10
        :: s11 :: s12 :: s13 :: s14 :: s15 :: s16 :: s17 :: rest) 12 true
  = ([], Raise (ValueError "could not convert string to float")).
Proof.
  intros Hdot.
  unfold starts_with_dot_percent in Hdot.
  unfold upgrade_settings, translate_matlab, percent_to_fraction.
  cbn -[String.eqb match_percent existsb].
  destruct (match_percent s9) as [c|]; [|discriminate]. rewrite Hdot.
  split_conditions; reflexivity.
Qed.

Lemma long_list (l : list string) :
  (18 <= length l)%nat ->
  exists s0 s1 s2 s3 s4 s5 s6 s7 s8 s9 s10 s11 s12 s13 s14 s15 s16 s17 rest,
    l = s0 :: s1 :: s2 :: s3 :: s4 :: s5 :: s6 :: s7 :: s8 :: s9 :: s10
           :: s11 :: s12 :: s13 :: s14 :: s15 :: s16 :: s17 :: rest.
Proof.
  intros H.
  do 18 (destruct l as [|? l]; [simpl in H; lia|]).
  repeat eexists.
Qed.

(** A Matlab revision 12 list of at least 18 values whose object fraction
    does not start with a dot and a percent sign is translated without
    error to revision 4, no longer marked as coming from Matlab, with
    exactly one value for each of the settings that [settings] lists. *)
Theorem upgrade_matlab_fills_every_setting (V : Vocabulary)
        (setting_values : list string) :
  (18 <= length setting_values)%nat ->
  starts_with_dot_percent (nth OBJECT_FRACTION_VAR setting_values ""%string)
  = false ->
  exists u,
    upgrade_settings V setting_values 12 true = ([], Ok u)
    /\ upgraded_revision u = 4
    /\ upgraded_from_matlab u = false
    /\ length (upgraded_values u) = length saved_settings.
Proof.
  intros Hlen Hdot.
  destruct (long_list _ Hlen)
    as (s0 & s1 & s2 & s3 & s4 & s5 & s6 & s7 & s8 & s9 & s10 & s11 & s12
        & s13 & s14 & s15 & s16 & s17 & rest & ->).
  simpl in Hdot.
  rewrite upgrade_matlab_closed_form by assumption.
  eexists. split; [reflexivity|]. repeat split.
Qed.

Lemma upgrade_matlab_fills_every_setting_witness :
  exists u,
    upgrade_settings Examples.cp_vocabulary Examples.matlab_values 12 true
    = ([], Ok u)
    /\ upgraded_revision u = 4
    /\ upgraded_from_matlab u = false
    /\ length (upgraded_values u) = length saved_settings.
Proof.
  apply upgrade_matlab_fills_every_setting.
  - simpl. lia.
  - reflexivity.
Defined.

(** The translation stops with a ValueError when the Matlab object fraction
    starts with a dot and a percent sign: the matched dot is not a number. *)
Theorem upgrade_matlab_dot_percent_raises (V : Vocabulary)
        (setting_values : list string) :
  (18 <= length setting_values)%nat ->
  starts_with_dot_percent (nth OBJECT_FRACTION_VAR setting_values ""%string)
  = true ->
  upgrade_settings V setting_values 12 true
  = ([], Raise (ValueError "could not convert string to float")).
Proof.
  intros Hlen Hdot.
  destruct (long_list _ Hlen)
    as (s0 & s1 & s2 & s3 & s4 & s5 & s6 & s7 & s8 & s9 & s10 & s11 & s12
        & s13 & s14 & s15 & s16 & s17 & rest & ->).
  simpl in Hdot. now apply upgrade_matlab_dot_percent.
Qed.

Lemma upgrade_matlab_dot_percent_raises_witness :
  upgrade_settings Examples.cp_vocabulary
    (updated Examples.matlab_values OBJECT_FRACTION_VAR ".%") 12 true
  = ([], Raise (ValueError "could not convert string to float")).
Proof.
  apply upgrade_matlab_dot_percent_raises.
  - simpl. lia.
  - reflexivity.
Defined.

Lemma upgrade_matlab_inversion (V : Vocabulary) (setting_values : list string)
      (u : upgraded) :
  (18 <= length setting_values)%nat ->
  outcome (upgrade_settings V setting_values 12 true) = Ok u ->
  starts_with_dot_percent (nth OBJECT_FRACTION_VAR setting_values ""%string)
  = false.
Proof.
  intros Hlen H.
  destruct (starts_with_dot_percent _) eqn:E; [|reflexivity].
  rewrite upgrade_matlab_dot_percent_raises in H by assumption. discriminate.
Qed.

(** In the translation of a Matlab revision 12 list the unclumping and the
    dividing-line mode are the Matlab values with "Do not use" replaced by
    None; a smoothing or suppression size "Automatic" becomes 10 or 5 with
    the automatic checkbox (positions 17 and 18) set to Yes, and any other
    size is kept with the checkbox set to No. *)
Theorem upgrade_matlab_translates_modes (V : Vocabulary)
        (setting_values : list string) (u : upgraded) :
  (18 <= length setting_values)%nat ->
  outcome (upgrade_settings V setting_values 12 true) = Ok u ->
  let old i := nth i setting_values ""%string in
  let new i := nth_error (upgraded_values u) i in
  new UNCLUMP_METHOD_VAR
  = Some (if (old UNCLUMP_METHOD_VAR =? DO_NOT_USE V)%string
          then UN_NONE else old UNCLUMP_METHOD_VAR)
  /\ new WATERSHED_VAR
     = Some (if (old WATERSHED_VAR =? DO_NOT_USE V)%string
             then WA_NONE else old WATERSHED_VAR)
  /\ new SMOOTHING_SIZE_VAR
     = Some (if (old SMOOTHING_SIZE_VAR =? AUTOMATIC V)%string
             then "10"%string else old SMOOTHING_SIZE_VAR)
  /\ new 17%nat
     = Some (if (old SMOOTHING_SIZE_VAR =? AUTOMATIC V)%string
             then YES V else NO V)
  /\ new MAXIMA_SUPPRESSION_SIZE_VAR
     = Some (if (old MAXIMA_SUPPRESSION_SIZE_VAR =? AUTOMATIC V)%string
             then "5"%string else old MAXIMA_SUPPRESSION_SIZE_VAR)
  /\ new 18%nat
     = Some (if (old MAXIMA_SUPPRESSION_SIZE_VAR =? AUTOMATIC V)%string
             then YES V else NO V)
  /\ nth_error saved_settings 17 = Some Setting.automatic_smoothing
  /\ nth_error saved_settings 18 = Some Setting.automatic_suppression.
Proof.
  intros Hlen H old new. subst old new.
  pose proof (upgrade_matlab_inversion V setting_values u Hlen H) as Hdot.
  destruct (long_list _ Hlen)
    as (s0 & s1 & s2 & s3 & s4 & s5 & s6 & s7 & s8 & s9 & s10 & s11 & s12
        & s13 & s14 & s15 & s16 & s17 & rest & ->).
  simpl in Hdot.
  rewrite upgrade_matlab_closed_form in H by assumption.
  unfold outcome in H. cbn [snd] in H.
  assert (E : forall a b : upgraded, Ok a = Ok b -> b = a)
    by (intros a b Hab; congruence).
  apply E in H. subst u. clear E.
  repeat split.
Qed.

Lemma upgrade_matlab_translates_modes_witness :
  nth_error ["OrigBlue"; "Nuclei"; "10,40"; "Yes"; "No"; "Yes";
             "Otsu Global"; "1"; "0,1"; "5%"; "None"; "Intensity"; "10";
             "7"; "Yes"; "None"; "Yes"; "Yes"; "No"; "0.0"; "Otsu Global";
             "No"; "Yes"; ".5"; "Two classes"; "Weighted variance";
             "Foreground"; "Yes"; "5"]%string UNCLUMP_METHOD_VAR
  = Some UN_NONE.
Proof.
  refine (proj1 (upgrade_matlab_translates_modes Examples.cp_vocabulary
            Examples.matlab_values
            {| upgraded_values :=
                 ["OrigBlue"; "Nuclei"; "10,40"; "Yes"; "No"; "Yes";
                  "Otsu Global"; "1"; "0,1"; "5%"; "None"; "Intensity";
                  "10"; "7"; "Yes"; "None"; "Yes"; "Yes"; "No"; "0.0";
                  "Otsu Global"; "No"; "Yes"; ".5"; "Two classes";
                  "Weighted variance"; "Foreground"; "Yes"; "5"]%string;
               upgraded_revision := 4;
               upgraded_from_matlab := false;
               caller_values :=
                 updated Examples.matlab_values OBJECT_FRACTION_VAR "0.05"
            |} _ _)).
  - simpl. lia.
  - vm_compute. reflexivity.
Defined.

(** The translation of a Matlab revision 12 list does not convert the
    object fraction it returns: the returned value is the Matlab one,
    percent sign included.  The fraction computed from a leading digit and
    percent sign is written to the caller's list, which is otherwise left
    as it was. *)
Theorem upgrade_matlab_returns_percent_unconverted (V : Vocabulary)
        (setting_values : list string) (u : upgraded) :
  (18 <= length setting_values)%nat ->
  outcome (upgrade_settings V setting_values 12 true) = Ok u ->
  let fraction := nth OBJECT_FRACTION_VAR setting_values ""%string in
  nth_error (upgraded_values u) OBJECT_FRACTION_VAR = Some fraction
  /\ (match_percent fraction = None -> caller_values u = setting_values)
  /\ (forall c, match_percent fraction = Some c ->
        exists converted,
          outcome (percent_to_fraction c) = Ok converted
          /\ caller_values u
             = updated setting_values OBJECT_FRACTION_VAR converted).
Proof.
  intros Hlen H fraction. subst fraction.
  pose proof (upgrade_matlab_inversion V setting_values u Hlen H) as Hdot.
  destruct (long_list _ Hlen)
    as (s0 & s1 & s2 & s3 & s4 & s5 & s6 & s7 & s8 & s9 & s10 & s11 & s12
        & s13 & s14 & s15 & s16 & s17 & rest & ->).
  cbn [nth OBJECT_FRACTION_VAR] in *.
  rewrite upgrade_matlab_closed_form in H by assumption.
  unfold outcome in H. cbn [snd] in H.
  assert (E : forall a b : upgraded, Ok a = Ok b -> b = a)
    by (intros a b Hab; congruence).
  apply E in H. subst u. clear E.
  cbn [upgraded_values caller_values].
  split; [reflexivity|]. split.
  - intros ->. reflexivity.
  - intros c Hc. rewrite Hc.
    unfold starts_with_dot_percent in Hdot. rewrite Hc in Hdot.
    unfold percent_to_fraction. rewrite Hdot.
    destruct (Ascii.nat_of_ascii c =? 48)%nat; eexists; split; reflexivity.
Qed.

Lemma upgrade_matlab_returns_percent_unconverted_witness :
  nth_error ["OrigBlue"; "Nuclei"; "10,40"; "Yes"; "No"; "Yes";
             "Otsu Global"; "1"; "0,1"; "5%"; "None"; "Intensity"; "10";
             "7"; "Yes"; "None"; "Yes"; "Yes"; "No"; "0.0"; "Otsu Global";
             "No"; "Yes"; ".5"; "Two classes"; "Weighted variance";
             "Foreground"; "Yes"; "5"]%string OBJECT_FRACTION_VAR
  = Some "5%"%string.
Proof.
  refine (proj1 (upgrade_matlab_returns_percent_unconverted
            Examples.cp_vocabulary Examples.matlab_values
            {| upgraded_values :=
                 ["OrigBlue"; "Nuclei"; "10,40"; "Yes"; "No"; "Yes";
                  "Otsu Global"; "1"; "0,1"; "5%"; "None"; "Intensity";
                  "10"; "7"; "Yes"; "None"; "Yes"; "Yes"; "No"; "0.0";
                  "Otsu Global"; "No"; "Yes"; ".5"; "Two classes";
                  "Weighted variance"; "Foreground"; "Yes"; "5"]%string;
               upgraded_revision := 4;
               upgraded_from_matlab := false;
               caller_values :=
                 updated Examples.matlab_values OBJECT_FRACTION_VAR "0.05"
            |} _ _)).
  - simpl. lia.
  - vm_compute. reflexivity.
Defined.

(** ** The settings shown *)

Lemma in_snoc_if {A : Type} (b : bool) (l : list A) (a x : A) :
  In x (if b then l ++ [a] else l) <-> In x l \/ (b = true /\ x = a).
Proof.
  destruct b; [rewrite in_app_iff; simpl|]; intuition congruence.
Qed.

Lemma in_snoc {A : Type} (l : list A) (a x : A) :
  In x (l ++ [a]) <-> In x l \/ x = a.
Proof. rewrite in_app_iff. simpl. intuition congruence. Qed.

(** Membership in the list of shown settings. *)
Lemma in_visible_settings (self : settings) (wants_outlines : bool)
      (threshold_visible : list Setting.id) (x : Setting.id) :
  In x (visible_settings self wants_outlines threshold_visible)
  <-> In x [Setting.image_name; Setting.object_name; Setting.size_range;
            Setting.exclude_size; Setting.merge_objects;
            Setting.exclude_border_objects; Setting.unclump_method;
            Setting.should_save_outlines; Setting.fill_holes]
      \/ In x threshold_visible
      \/ (wants_outlines = true /\ x = Setting.save_outlines)
      \/ (unclump_method self <> UN_NONE
          /\ (In x [Setting.watershed_method; Setting.automatic_smoothing;
                    Setting.automatic_suppression; Setting.low_res_maxima]
              \/ (automatic_smoothing self = false
                  /\ x = Setting.smoothing_filter_size)
              \/ (automatic_suppression self = false
                  /\ x = Setting.maxima_suppression_size)
              \/ (unclump_method self = UN_LOG
                  /\ (In x [Setting.wants_automatic_log_threshold;
                            Setting.wants_automatic_log_diameter]
                      \/ (wants_automatic_log_threshold self = false
                          /\ x = Setting.manual_log_threshold)
                      \/ (wants_automatic_log_diameter self = false
                          /\ x = Setting.log_diameter))))).
Proof.
  unfold visible_settings.
  rewrite in_snoc, in_snoc_if, in_snoc.
  destruct (String.eqb_spec (unclump_method self) UN_NONE) as [E|E];
    simpl negb; cbv iota.
  - rewrite in_snoc, in_app_iff. simpl. intuition congruence.
  - rewrite in_snoc, in_snoc_if, in_snoc, in_snoc_if, in_app_iff.
    destruct (String.eqb_spec (unclump_method self) UN_LOG) as [L|L].
    + rewrite in_snoc_if, in_snoc, in_snoc_if, !in_snoc, in_app_iff.
      rewrite !negb_true_iff. simpl. intuition congruence.
    + rewrite in_snoc, in_app_iff. rewrite !negb_true_iff. simpl.
      intuition congruence.
Qed.

(** When the base class shows threshold settings only, the unclumping
    settings are shown under these conditions: the dividing-line mode, the
    two automatic checkboxes and the low-resolution checkbox exactly when the
    unclumping mode is not None, the manual smoothing and suppression sizes
    exactly when moreover their automatic checkbox is off, and the manual
    Laplacian-of-Gaussian threshold and diameter exactly when the mode is
    Laplacian of Gaussian and their automatic checkbox is off. *)
Theorem declumping_settings_visibility (self : settings)
        (wants_outlines : bool) (threshold_visible : list Setting.id) :
  (forall x, In x threshold_visible -> In x threshold_settings) ->
  let shown x := In x (visible_settings self wants_outlines threshold_visible) in
  let unclumping := unclump_method self <> UN_NONE in
  (shown Setting.watershed_method <-> unclumping)
  /\ (shown Setting.automatic_smoothing <-> unclumping)
  /\ (shown Setting.automatic_suppression <-> unclumping)
  /\ (shown Setting.low_res_maxima <-> unclumping)
  /\ (shown Setting.smoothing_filter_size
      <-> unclumping /\ automatic_smoothing self = false)
  /\ (shown Setting.maxima_suppression_size
      <-> unclumping /\ automatic_suppression self = false)
  /\ (shown Setting.manual_log_threshold
      <-> unclump_method self = UN_LOG
          /\ wants_automatic_log_threshold self = false)
  /\ (shown Setting.log_diameter
      <-> unclump_method self = UN_LOG
          /\ wants_automatic_log_diameter self = false).
Proof.
  intros Hthr shown unclumping. subst shown unclumping.
  assert (Hlog : unclump_method self = UN_LOG -> unclump_method self <> UN_NONE)
    by (intros -> ; discriminate).
  assert (Hno : forall x, ~ In x threshold_settings ->
                          ~ In x threshold_visible) by (intros x Hx Hin; auto).
  unfold threshold_settings in Hno.
  repeat apply conj; intros H;
    try (apply in_visible_settings in H; simpl in H;
         repeat match type of H with
                | _ \/ _ => destruct H as [H|H]
                | _ /\ _ => destruct H as [? H]
                | False => contradiction
                end;
         try discriminate; try assumption; try (now auto);
         try (exfalso; revert H; apply Hno; simpl; intuition discriminate));
    try (apply in_visible_settings; simpl; tauto).
  all: try (apply in_visible_settings; simpl; intuition).
Qed.

Lemma declumping_settings_visibility_witness :
  In Setting.smoothing_filter_size
     (visible_settings Examples.peaks_settings false
                       [Setting.threshold_method])
  <-> unclump_method Examples.peaks_settings <> UN_NONE
      /\ automatic_smoothing Examples.peaks_settings = false.
Proof.
  refine (proj1 (proj2 (proj2 (proj2 (proj2
            (declumping_settings_visibility Examples.peaks_settings false
               [Setting.threshold_method] _)))))).
  intros x [<- | []]. simpl. tauto.
Defined.

(** Every setting that is shown is one of the settings that are saved,
    provided the base class shows threshold settings only; the test-mode
    setting is neither shown nor saved. *)
Theorem visible_settings_are_saved (self : settings) (wants_outlines : bool)
        (threshold_visible : list Setting.id) :
  (forall x, In x threshold_visible -> In x threshold_settings) ->
  (forall x, In x (visible_settings self wants_outlines threshold_visible) ->
             In x saved_settings)
  /\ ~ In Setting.test_mode
          (visible_settings self wants_outlines threshold_visible)
  /\ ~ In Setting.test_mode saved_settings.
Proof.
  intros Hthr.
  assert (Hsaved : forall x, In x threshold_settings -> In x saved_settings).
  { intros x Hx. simpl in Hx. simpl. intuition. }
  split; [|split].
  - intros x H. apply in_visible_settings in H.
    destruct H as [H | [H | [[_ ->] | [_ H]]]].
    + simpl in H. simpl. intuition.
    + auto.
    + simpl. tauto.
    + simpl in H. simpl.
      repeat match type of H with
             | _ \/ _ => destruct H as [H|H]
             | _ /\ _ => destruct H as [_ H]
             | False => contradiction
             end; subst x; tauto.
  - intros H. apply in_visible_settings in H.
    assert (Ht : ~ In Setting.test_mode threshold_visible).
    { intros Hin. apply Hthr in Hin. simpl in Hin. intuition discriminate. }
    simpl in H.
    repeat match type of H with
           | _ \/ _ => destruct H as [H|H]
           | _ /\ _ => destruct H as [_ H]
           | False => contradiction
           end; try discriminate; auto.
  - simpl. intuition discriminate.
Qed.

Lemma visible_settings_are_saved_witness :
  (forall x, In x (visible_settings Examples.defaults true
                                    [Setting.threshold_method;
                                     Setting.threshold_range]) ->
             In x saved_settings)
  /\ ~ In Setting.test_mode
          (visible_settings Examples.defaults true
                            [Setting.threshold_method;
                             Setting.threshold_range])
  /\ ~ In Setting.test_mode saved_settings.
Proof.
  apply visible_settings_are_saved.
  intros x [<- | [<- | []]]; simpl; tauto.
Defined.

(** ** The outline display *)

(** In the outline display of a grayscale image a pixel on the outline of a
    border-excluded object is yellow, otherwise one on the outline of a
    size-excluded object is red, otherwise one on the outline of an accepted
    object is green, and every other pixel keeps its gray value in the three
    channels. *)
Theorem outline_colours_by_priority (pixel_data : farray)
        (outline_image outline_size_excluded_image
         outline_border_excluded_image : iarray)
        (r c : nat) (v : Q) (accepted size_excluded border_excluded : Z) :
  pixel pixel_data r c = Some v ->
  pixel outline_image r c = Some accepted ->
  pixel outline_size_excluded_image r c = Some size_excluded ->
  pixel outline_border_excluded_image r c = Some border_excluded ->
  let channels := outline_channels pixel_data outline_image
                    outline_size_excluded_image
                    outline_border_excluded_image in
  let colour := (pixel (fst (fst channels)) r c,
                 pixel (snd (fst channels)) r c,
                 pixel (snd channels) r c) in
  (border_excluded <> 0 -> colour = (Some 1%Q, Some 1%Q, Some 0%Q))
  /\ (border_excluded = 0 -> size_excluded <> 0 ->
      colour = (Some 1%Q, Some 0%Q, Some 0%Q))
  /\ (border_excluded = 0 -> size_excluded = 0 -> accepted <> 0 ->
      colour = (Some 0%Q, Some 1%Q, Some 0%Q))
  /\ (border_excluded = 0 -> size_excluded = 0 -> accepted = 0 ->
      colour = (Some v, Some v, Some v)).
Proof.
  intros Hv Ha Hs Hb channels colour. subst channels colour.
  unfold outline_channels, set_where. cbn [fst snd].
  rewrite !pixel_gmap2, !pixel_gmap, Hv, Ha, Hs, Hb. cbn [option_map].
  destruct (Z.eqb_spec border_excluded 0), (Z.eqb_spec size_excluded 0),
           (Z.eqb_spec accepted 0); cbn [negb];
    repeat apply conj; intros; try contradiction; try reflexivity.
Qed.

Lemma outline_colours_by_priority_witness :
  let channels :=
    outline_channels Examples.ring_and_dot Examples.ring_only
                     Examples.dot_only
                     (outline_border_excluded_image Examples.ring_result) in
  (pixel (fst (fst channels)) 2 2, pixel (snd (fst channels)) 2 2,
   pixel (snd channels) 2 2)
  = (Some 1%Q, Some 0%Q, Some 0%Q).
Proof.
  refine (proj1 (proj2
            (outline_colours_by_priority Examples.ring_and_dot
               Examples.ring_only Examples.dot_only
               (outline_border_excluded_image Examples.ring_result)
               2 2 1%Q 0 2 0 eq_refl eq_refl eq_refl eq_refl)) eq_refl _).
  discriminate.
Defined.

(** ** The displayed statistics *)

Lemma length_concat_uniform {A : Type} (g : grid A) (n : nat) :
  (forall row, In row g -> length row = n) ->
  length (concat g) = (length g * n)%nat.
Proof.
  induction g as [|row g IH]; simpl; intros H; [reflexivity|].
  rewrite length_app, (H row) by now left.
  rewrite IH by (intros r Hr; apply H; now right). reflexivity.
Qed.

Lemma length_filter_le {A : Type} (p : A -> bool) (l : list A) :
  (length (filter p l) <= length l)%nat.
Proof.
  induction l as [|x l IH]; simpl; [lia|]. destruct (p x); simpl; lia.
Qed.

(** On a rectangular label map that holds a positive label the percentage
    is computed without error and lies in (0, 100]. *)
Lemma area_covered_defined (labeled_image : iarray) (object_count : Z)
      (r c : nat) (l : Z) :
  rectangular labeled_image -> 0 < object_count ->
  pixel labeled_image r c = Some l -> 0 < l ->
  exists p, area_covered labeled_image object_count = ([], Ok (Some p))
            /\ (0 < p)%Q /\ (p <= 100)%Q.
Proof.
  intros Hrect Hn Hp Hl. unfold area_covered.
  destruct (Z.ltb_spec 0 object_count); [|lia]. cbv zeta.
  set (total := (fst (shape labeled_image) * snd (shape labeled_image))%nat).
  set (covered := length (filter (Z.ltb 0) (flatten labeled_image))).
  assert (Hle : (covered <= total)%nat).
  { subst covered total. unfold flatten, shape. simpl.
    rewrite <- (length_concat_uniform labeled_image
                  (length (hd [] labeled_image))) by exact Hrect.
    apply length_filter_le. }
  assert (Hpos : (0 < covered)%nat).
  { subst covered.
    assert (Hin : In l (filter (Z.ltb 0) (flatten labeled_image))).
    { apply filter_In. split; [eauto using pixel_In|now apply Z.ltb_lt]. }
    destruct (filter (Z.ltb 0) (flatten labeled_image));
      [destruct Hin|simpl; lia]. }
  destruct (Z.eqb_spec (Z.of_nat total) 0) as [E|E]; [lia|].
  eexists. split; [reflexivity|].
  assert (Ht : (0 < inject_Z (Z.of_nat total))%Q).
  { rewrite <- (Zlt_Qlt 0). lia. }
  assert (Hc : (0 < inject_Z (Z.of_nat covered))%Q).
  { rewrite <- (Zlt_Qlt 0). lia. }
  assert (Hct : (inject_Z (Z.of_nat covered) <= inject_Z (Z.of_nat total))%Q).
  { rewrite <- Zle_Qle. lia. }
  split.
  - apply Qlt_shift_div_l; [assumption|]. lra.
  - apply Qle_shift_div_r; [assumption|]. lra.
Qed.

(** The percentage of the image covered by objects that a run displays:
    nothing is computed when the run counts no object, and otherwise, on a
    rectangular image, the final map holds an object, the division is
    defined and the percentage lies in (0, 100]. *)
Theorem area_covered_is_a_percentage (K : Kernels) (self : settings)
        (image : cpimage) (local_threshold : farray) (global_threshold : Q)
        (seg : segmentation) :
  outcome (run K self image local_threshold global_threshold) = Ok seg ->
  rectangular (unedited_segmented seg) ->
  (final_object_count seg <= 0 ->
   area_covered (segmented seg) (final_object_count seg) = ([], Ok None))
  /\ (0 < final_object_count seg ->
      exists p,
        area_covered (segmented seg) (final_object_count seg)
        = ([], Ok (Some p))
        /\ (0 < p)%Q /\ (p <= 100)%Q).
Proof.
  intros H Hrect. split.
  - intros Hn. unfold area_covered.
    destruct (Z.ltb_spec 0 (final_object_count seg)); [lia|reflexivity].
  - intros Hn. unfold run in H.
    apply bind_Ok in H. destruct H as (blurred & _ & H).
    apply bind_Ok in H. destruct H as ([lab0 n0] & _ & H).
    apply bind_Ok in H. destruct H as (lab1 & _ & H).
    apply bind_Ok in H. destruct H as ([[lab2 n2] mss] & _ & H).
    pose proof (filter_and_relabel_unedited K self image lab2 n2 mss seg H)
      as Hun.
    rewrite Hun in Hrect.
    destruct (filter_and_relabel_maps K self image lab2 n2 mss seg H)
      as (border & size & _ & _ & _ & _ & Ecount & Ef).
    assert (Hrel : rectangular (fst (relabel (gmap size lab2)))).
    { unfold relabel. cbn [fst]. now do 2 apply rectangular_gmap. }
    assert (Hobj : exists r c l,
               pixel (fst (relabel (gmap size lab2))) r c = Some l /\ 0 < l).
    { rewrite Ecount in Hn. unfold relabel in Hn. cbn [snd] in Hn.
      destruct (unique_labels (gmap size lab2)) as [|l0 ls] eqn:Eu;
        [simpl in Hn; lia|].
      assert (Hin : In l0 (unique_labels (gmap size lab2)))
        by (rewrite Eu; now left).
      apply In_unique_labels in Hin. destruct Hin as [Hin Hl0].
      apply In_pixel in Hin. destruct Hin as (r & c & Hp).
      destruct (relabel_pixel_positive _ _ _ _ Hp Hl0) as (l' & Hp' & Hl').
      eauto. }
    destruct Hobj as (r & c & l & Hp & Hl).
    apply (area_covered_defined _ _ r c l); try assumption.
    + rewrite Ef. destruct (fill_holes self); [|exact Hrel].
      apply rectangular_tabulate.
    + rewrite Ef. destruct (fill_holes self); [|exact Hp].
      apply fill_keeps_foreground; [exact Hrel|exact Hp|lia].
Qed.

Lemma area_covered_is_a_percentage_witness :
  (final_object_count Examples.ring_result <= 0 ->
   area_covered (segmented Examples.ring_result)
                (final_object_count Examples.ring_result) = ([], Ok None))
  /\ (0 < final_object_count Examples.ring_result ->
      exists p,
        area_covered (segmented Examples.ring_result)
                     (final_object_count Examples.ring_result)
        = ([], Ok (Some p))
        /\ (0 < p)%Q /\ (p <= 100)%Q).
Proof.
  apply (area_covered_is_a_percentage Examples.plain_kernels
           (Examples.ring_settings false) Examples.ring_image
           Examples.half_5x5 0.5%Q Examples.ring_result).
  - vm_compute. reflexivity.
  - intros row Hrow. simpl in Hrow.
    repeat (destruct Hrow as [<-|Hrow]; [reflexivity|]). contradiction.
Defined.

Lemma length_insert_sorted (x : Z) (xs : list Z) :
  length (insert_sorted x xs) = S (length xs).
Proof.
  induction xs as [|y ys IH]; simpl; [reflexivity|].
  destruct (x <=? y); simpl; [reflexivity|]. now rewrite IH.
Qed.

Lemma length_fold_insert_sorted (l : list Z) :
  length (fold_right insert_sorted [] l) = length l.
Proof.
  induction l as [|k ks IH]; simpl; [reflexivity|].
  now rewrite length_insert_sorted, IH.
Qed.

Lemma length_sorted_areas (labeled_image : iarray) (object_count : Z) :
  length (sorted_areas labeled_image object_count) = Z.to_nat object_count.
Proof.
  unfold sorted_areas, label_histogram.
  rewrite length_fold_insert_sorted, length_map, length_arange. f_equal. lia.
Qed.

Lemma increasing_cons (x : Z) (xs : list Z) :
  (forall y, In y xs -> x <= y) -> increasing xs -> increasing (x :: xs).
Proof.
  intros Hx Hxs [|i] [|j] H; simpl in *; try lia.
  - apply Hx. apply nth_In. lia.
  - apply Hxs. lia.
Qed.

Lemma increasing_tail (x : Z) (xs : list Z) :
  increasing (x :: xs) ->
  (forall y, In y xs -> x <= y) /\ increasing xs.
Proof.
  intros H. split.
  - intros y Hy. apply (In_nth _ _ 0) in Hy. destruct Hy as (n & Hn & <-).
    apply (H 0%nat (S n)). simpl. lia.
  - intros i j Hij. apply (H (S i) (S j)). simpl. lia.
Qed.

Lemma In_insert_sorted (x y : Z) (xs : list Z) :
  In y (insert_sorted x xs) -> y = x \/ In y xs.
Proof.
  induction xs as [|z zs IH]; simpl.
  - intuition.
  - destruct (x <=? z); simpl; intuition.
Qed.

Lemma insert_sorted_increasing (x : Z) (xs : list Z) :
  increasing xs -> increasing (insert_sorted x xs).
Proof.
  induction xs as [|y ys IH]; simpl; intros H.
  - apply increasing_cons; [intros y []|intros i j Hij; simpl in Hij; lia].
  - destruct (increasing_tail _ _ H) as [Hy Hys].
    destruct (Z.leb_spec x y).
    + apply increasing_cons; [|assumption].
      intros z [<-|Hz]; [assumption|]. specialize (Hy z Hz). lia.
    + apply increasing_cons; [|now apply IH].
      intros z Hz. apply In_insert_sorted in Hz.
      destruct Hz as [->|Hz]; [lia|now apply Hy].
Qed.

Lemma sorted_areas_increasing (labeled_image : iarray) (object_count : Z) :
  increasing (sorted_areas labeled_image object_count).
Proof.
  unfold sorted_areas.
  induction (label_histogram labeled_image object_count) as [|a l IH]; simpl.
  - intros i j H. simpl in H. lia.
  - now apply insert_sorted_increasing.
Qed.

Lemma rank_areas_ordered (labeled_image : iarray) (object_count : Z) :
  0 < object_count ->
  (Z.to_nat (object_count / 10)
   <= Z.to_nat (object_count * 9 / 10)
   < length (sorted_areas labeled_image object_count))%nat
  /\ low_rank_area labeled_image object_count
     <= high_rank_area labeled_image object_count.
Proof.
  intros Hn.
  assert (H0 : 0 <= object_count / 10) by (apply Z.div_pos; lia).
  assert (H1 : object_count / 10 <= object_count * 9 / 10)
    by (apply Z.div_le_mono; lia).
  assert (H2 : object_count * 9 / 10 < object_count)
    by (apply Z.div_lt_upper_bound; lia).
  assert (Hr : (Z.to_nat (object_count / 10)
                <= Z.to_nat (object_count * 9 / 10)
                < length (sorted_areas labeled_image object_count))%nat).
  { rewrite length_sorted_areas. lia. }
  split; [exact Hr|].
  unfold low_rank_area, high_rank_area.
  now apply sorted_areas_increasing.
Qed.

Section ReportedDiameters.

Import Reals Lra.
Import Statistics.
Local Open Scope R_scope.

Lemma diameter_statistic_monotone (a b : Z) :
  (a <= b)%Z -> 0 <= diameter_statistic a <= diameter_statistic b.
Proof.
  intros Hab. unfold diameter_statistic.
  assert (Hpi : 0 < PI) by apply PI_RGT_0.
  assert (Hs : sqrt (IZR a) <= sqrt (IZR b))
    by (apply sqrt_le_1_alt; now apply IZR_le).
  assert (H0 : 0 <= sqrt (IZR a)) by apply sqrt_pos.
  assert (Hk : 0 < 2 / PI) by (apply Rdiv_lt_0_compat; lra).
  unfold Rdiv in *. rewrite !Rmult_assoc. split.
  - apply Rmult_le_pos; lra.
  - apply Rmult_le_compat_r; lra.
Qed.

(** For a positive object count both ranks lie within the sorted areas, and
    the statistic reported as 10th percentile diameter is non-negative and
    at most the one reported as 90th percentile diameter. *)
Theorem reported_diameters_ordered (labeled_image : iarray)
        (object_count : Z) :
  (0 < object_count)%Z ->
  (Z.to_nat (object_count / 10)
   <= Z.to_nat (object_count * 9 / 10)
   < length (sorted_areas labeled_image object_count))%nat
  /\ 0 <= low_diameter labeled_image object_count
       <= high_diameter labeled_image object_count.
Proof.
  intros Hn.
  destruct (rank_areas_ordered labeled_image object_count Hn) as [Hr Hle].
  split; [exact Hr|].
  unfold low_diameter, high_diameter.
  now apply diameter_statistic_monotone.
Qed.

Lemma reported_diameters_ordered_witness :
  (Z.to_nat (1 / 10) <= Z.to_nat (1 * 9 / 10)
   < length (sorted_areas Examples.square_object 1))%nat
  /\ 0 <= low_diameter Examples.square_object 1
       <= high_diameter Examples.square_object 1.
Proof.
  apply (reported_diameters_ordered Examples.square_object 1). reflexivity.
Defined.

End ReportedDiameters.

(** ** Low-resolution maxima *)

(** The resize factor of the maxima search is positive and at most 1: the
    image is never enlarged, and it is shrunk exactly when low-resolution
    maxima are wanted and the minimum diameter exceeds 10 pixels. *)
Theorem image_resize_factor_range (self : settings) :
  (0 < image_resize_factor self)%Q
  /\ (image_resize_factor self <= 1)%Q
  /\ ((image_resize_factor self < 1)%Q
      <-> low_res_maxima self = true /\ 10 < size_range_min self).
Proof.
  unfold image_resize_factor, low_resolution.
  destruct (low_res_maxima self); simpl andb;
    [destruct (Z.ltb_spec 10 (size_range_min self)) as [Hm|Hm]|].
  - assert (Hq : (10 < inject_Z (size_range_min self))%Q).
    { change 10%Q with (inject_Z 10). now rewrite <- Zlt_Qlt. }
    assert (H0 : (0 < inject_Z (size_range_min self))%Q) by lra.
    split; [|split; [|split; [tauto|]]].
    + apply Qlt_shift_div_l; [assumption|lra].
    + apply Qle_shift_div_r; [assumption|lra].
    + intros _. apply Qlt_shift_div_r; [assumption|lra].
  - split; [lra|split; [lra|]]. split; [lra|lia].
  - split; [lra|split; [lra|]]. split; [lra|intros [? _]; discriminate].
Qed.

(** With a minimum diameter of at most 10 pixels the low-resolution setting
    has no effect on the declumping. *)
Theorem low_res_maxima_needs_large_objects (K : Kernels) (self : settings)
        (b : bool) (image : farray) (mask : barray) (labeled_image : iarray)
        (object_count : Z) (threshold : Q) :
  size_range_min self <= 10 ->
  separate_neighboring_objects K (with_low_res_maxima b self) image mask
                               labeled_image object_count threshold
  = separate_neighboring_objects K self image mask labeled_image
                                 object_count threshold.
Proof.
  intros Hm.
  unfold separate_neighboring_objects, unclump_sigma, smooth_image,
    calc_smoothing_filter_size, effective_maxima_suppression_size,
    find_maxima, log_response, watershed_surface, image_resize_factor,
    low_resolution, with_low_res_maxima.
  cbn [size_range_min size_range_max exclude_size exclude_border_objects
       unclump_method watershed_method automatic_smoothing
       smoothing_filter_size automatic_suppression maxima_suppression_size
       low_res_maxima fill_holes wants_automatic_log_threshold
       manual_log_threshold wants_automatic_log_diameter log_diameter].
  destruct (Z.ltb_spec 10 (size_range_min self)); [lia|].
  now rewrite !andb_false_r.
Qed.

Lemma low_res_maxima_needs_large_objects_witness :
  separate_neighboring_objects Examples.plain_kernels
    (with_low_res_maxima false Examples.defaults) Examples.two_peaks
    Examples.all_valid_1x3 Examples.one_blob 1 0.5%Q
  = separate_neighboring_objects Examples.plain_kernels Examples.defaults
      Examples.two_peaks Examples.all_valid_1x3 Examples.one_blob 1 0.5%Q.
Proof.
  apply low_res_maxima_needs_large_objects. simpl. lia.
Defined.

(** ** The Laplacian-of-Gaussian response *)

(** The thresholded Laplacian-of-Gaussian response in which maxima are
    sought has no negative entry: values under the threshold are raised to
    it before it is subtracted. *)
Theorem log_response_is_nonnegative (K : Kernels) (self : settings)
        (image : farray) (mask : barray) (r c : nat) (v : Q) :
  pixel (log_response K self image mask) r c = Some v -> (0 <= v)%Q.
Proof.
  unfold log_response.
  destruct (Qltb (image_resize_factor self) 1.0); cbv zeta iota beta;
    rewrite set_where_gmap, gmap_gmap, pixel_gmap;
    match goal with
    | |- option_map _ ?p = _ -> _ => destruct p as [x|]; [|discriminate]
    end;
    cbn [option_map]; intros H; inversion H; subst v; clear H;
    match goal with
    | |- context [if Qltb ?y ?t then _ else _] =>
        destruct (Qltb y t) eqn:E; [lra|apply Qltb_ge in E; lra]
    end.
Qed.

Lemma log_response_is_nonnegative_witness : (0 <= 0.9)%Q.
Proof.
  apply (log_response_is_nonnegative Examples.plain_kernels
           Examples.peaks_settings Examples.two_peaks Examples.all_valid_1x3
           0 1 0.9%Q).
  vm_compute. reflexivity.
Defined.

(** ** The watershed surface *)

Lemma fold_left_min_le (xs : list Q) (x0 : Q) :
  let least := fold_left (fun m y => if Qle_bool m y then m else y) xs x0 in
  In least (x0 :: xs) /\ forall x, In x (x0 :: xs) -> (least <= x)%Q.
Proof.
  revert x0. induction xs as [|y ys IH]; intros x0; cbn [fold_left].
  - split; [now left|]. intros x [<-|[]]. apply Qle_refl.
  - destruct (IH (if Qle_bool x0 y then x0 else y)) as [Hin Hle].
    destruct (Qle_bool x0 y) eqn:E.
    + apply Qle_bool_iff in E. split.
      * destruct Hin as [H|H]; [left; exact H|right; right; exact H].
      * intros x [<-|[<-|Hx]].
        -- apply Hle. now left.
        -- apply Qle_trans with x0; [apply Hle; now left|exact E].
        -- apply Hle. now right.
    + assert (Hyx : (y <= x0)%Q).
      { apply Qlt_le_weak. apply Qnot_le_lt. intros H.
        apply Qle_bool_iff in H. congruence. }
      split.
      * destruct Hin as [H|H]; [right; left; exact H|right; right; exact H].
      * intros x [<-|[<-|Hx]].
        -- apply Qle_trans with y; [apply Hle; now left|exact Hyx].
        -- apply Hle. now left.
        -- apply Hle. now right.
Qed.

Lemma np_min_least (a : farray) (lowest : Q) :
  np_min a = Some lowest ->
  In lowest (flatten a) /\ forall x, In x (flatten a) -> (lowest <= x)%Q.
Proof.
  unfold np_min. destruct (flatten a) as [|x0 xs]; [discriminate|].
  intros H. inversion H. apply fold_left_min_le.
Qed.

(** With the Distance method the surface handed to the watershed has no
    negative entry and is 0 somewhere: it is the negated distance transform
    shifted by its minimum. *)
Theorem distance_surface_is_nonnegative (K : Kernels) (self : settings)
        (image : farray) (labeled_image : iarray)
        (distance_transformed_image : option farray) (surface : farray) :
  watershed_method self = WA_DISTANCE ->
  outcome (watershed_surface K self image labeled_image
                             distance_transformed_image) = Ok surface ->
  (forall r c v, pixel surface r c = Some v -> (0 <= v)%Q)
  /\ exists r c v, pixel surface r c = Some v /\ (v == 0)%Q.
Proof.
  intros Hm. unfold watershed_surface. rewrite Hm.
  change ((WA_DISTANCE =? WA_INTENSITY)%string) with false.
  change ((WA_DISTANCE =? WA_DISTANCE)%string) with true. cbv iota.
  intros H. apply bind_Ok in H. destruct H as (d & _ & H).
  apply bind_Ok in H. destruct H as (lowest & Hlow & H).
  unfold of_option in Hlow.
  destruct (np_min (gmap Qopp d)) as [m|] eqn:Emin; [|discriminate].
  assert (m = lowest) by (unfold ret in Hlow; simpl in Hlow; congruence).
  subst m. inversion H; subst surface; clear H Hlow.
  destruct (np_min_least _ _ Emin) as [Hin Hle].
  split.
  - intros r c v Hp. rewrite pixel_gmap in Hp.
    destruct (pixel (gmap Qopp d) r c) as [x|] eqn:Hx; [|discriminate].
    simpl in Hp. inversion Hp; subst v.
    apply pixel_In in Hx. specialize (Hle x Hx). lra.
  - apply In_pixel in Hin. destruct Hin as (r & c & Hp).
    exists r, c, (lowest - lowest)%Q. rewrite pixel_gmap, Hp.
    split; [reflexivity|lra].
Qed.

Lemma distance_surface_is_nonnegative_witness :
  (forall r c v, pixel [[0; 0; 0]]%Q r c = Some v -> (0 <= v)%Q)
  /\ exists r c v, pixel [[0; 0; 0]]%Q r c = Some v /\ (v == 0)%Q.
Proof.
  apply (distance_surface_is_nonnegative Examples.plain_kernels
           (Examples.manual UN_SHAPE WA_DISTANCE 0 2 10 40 true true true)
           Examples.two_peaks Examples.one_blob None).
  - reflexivity.
  - vm_compute. reflexivity.
Defined.

(** ** Local maxima *)

Lemma fold_left_Qmax_ge (vs : list Q) (v0 : Q) :
  forall x, In x (v0 :: vs) -> (x <= fold_left Qmax vs v0)%Q.
Proof.
  revert v0. induction vs as [|y ys IH]; intros v0 x Hx; cbn [fold_left].
  - destruct Hx as [<-|[]]. apply Qle_refl.
  - assert (H0 : (v0 <= Qmax v0 y)%Q /\ (y <= Qmax v0 y)%Q).
    { unfold Qmax. destruct (Qle_bool v0 y) eqn:E.
      - apply Qle_bool_iff in E. split; [exact E|apply Qle_refl].
      - split; [apply Qle_refl|].
        apply Qlt_le_weak. apply Qnot_le_lt. intros H.
        apply Qle_bool_iff in H. congruence. }
    destruct H0 as [H0 Hy].
    destruct Hx as [E|[E|Hx]].
    + subst x. apply Qle_trans with (Qmax v0 y); [exact H0|].
      apply IH. now left.
    + subst x. apply Qle_trans with (Qmax v0 y); [exact Hy|].
      apply IH. now left.
    + apply IH. now right.
Qed.

(** At full resolution every marker [get_maxima] leaves is the value of the
    image at that pixel, and no pixel under the footprint centred there
    (with the reflected boundary) is brighter. *)
Theorem full_resolution_markers_are_local_maxima (K : Kernels)
        (image : farray) (labeled_image : iarray) (maxima_mask : barray)
        (image_resize_factor : Q) (r c : nat) (v : Q) :
  (1 <= image_resize_factor)%Q ->
  pixel (get_maxima K image labeled_image maxima_mask image_resize_factor) r c
  = Some v ->
  ~ (v == 0)%Q ->
  pixel image r c = Some v
  /\ forall d, In d (footprint_offsets maxima_mask) ->
       (at_or 0%Q image
              (reflect (Z.of_nat (fst (shape image))) (Z.of_nat r + fst d))
              (reflect (Z.of_nat (snd (shape image))) (Z.of_nat c + snd d))
        <= v)%Q.
Proof.
  intros Hf. apply Qltb_ge in Hf.
  unfold get_maxima. rewrite Hf. cbv iota beta zeta.
  unfold set_where.
  repeat (rewrite pixel_gmap2 || rewrite pixel_gmap).
  destruct (pixel image r c) as [x|] eqn:Hx; [|discriminate].
  destruct (pixel (maximum_filter image maxima_mask) r c) as [mf|] eqn:Hmf;
    [|discriminate].
  cbn [option_map].
  match goal with
  | |- context [pixel (binary_shrink ?s) r c] =>
      destruct (pixel (binary_shrink s) r c) as [shrunk|]; [|discriminate]
  end.
  destruct (pixel labeled_image r c) as [l|]; [|discriminate].
  cbn [option_map].
  intros H Hv.
  assert (Hkeep : Qltb x mf = false /\ v = x).
  { destruct (Qltb x mf).
    - exfalso. apply Hv.
      destruct (Qeq_bool 0 0), shrunk, (0 =? l); inversion H; reflexivity.
    - split; [reflexivity|].
      destruct (Qeq_bool x 0), shrunk, (0 =? l); inversion H;
        try reflexivity; exfalso; apply Hv; subst v; reflexivity. }
  destruct Hkeep as [Hlt ->]. apply Qltb_ge in Hlt.
  split; [reflexivity|].
  intros d Hd.
  apply Qle_trans with mf; [|exact Hlt].
  unfold maximum_filter in Hmf.
  apply pixel_tabulate_inv in Hmf. destruct Hmf as (_ & _ & ->).
  cbv zeta.
  set (sample := fun d : coord =>
         at_or 0%Q image
               (reflect (Z.of_nat (fst (shape image))) (Z.of_nat r + fst d))
               (reflect (Z.of_nat (snd (shape image))) (Z.of_nat c + snd d))).
  change (sample d
          <= match map sample (footprint_offsets maxima_mask) with
             | [] => at_or 0%Q image (Z.of_nat r) (Z.of_nat c)
             | v :: vs => fold_left Qmax vs v
             end)%Q.
  assert (Hin : In (sample d) (map sample (footprint_offsets maxima_mask)))
    by now apply in_map.
  destruct (map sample (footprint_offsets maxima_mask)) as [|v0 vs];
    [destruct Hin|].
  now apply fold_left_Qmax_ge.
Qed.

Lemma full_resolution_markers_are_local_maxima_witness :
  pixel Examples.bright_peaks 0 0 = Some 0.9%Q
  /\ forall d, In d (footprint_offsets (tabulate 1 3 (fun _ _ => true))) ->
       (at_or 0%Q Examples.bright_peaks
              (reflect (Z.of_nat (fst (shape Examples.bright_peaks)))
                       (Z.of_nat 0 + fst d))
              (reflect (Z.of_nat (snd (shape Examples.bright_peaks)))
                       (Z.of_nat 0 + snd d))
        <= 0.9)%Q.
Proof.
  apply (full_resolution_markers_are_local_maxima Examples.plain_kernels
           Examples.bright_peaks Examples.one_blob
           (tabulate 1 3 (fun _ _ => true)) 1%Q 0 0 0.9%Q).
  - apply Qle_refl.
  - vm_compute. reflexivity.
  - unfold Qeq. simpl. lia.
Defined.

(** ** Size exclusion applied twice *)

Lemma count_eq_map (f : Z -> Z) (l : Z) (xs : list Z) :
  (forall x, (l =? f x) = (l =? x)) ->
  count_eq l (map f xs) = count_eq l xs.
Proof.
  intros H. unfold count_eq. f_equal.
  induction xs as [|x xs IH]; simpl; [reflexivity|].
  rewrite H. destruct (l =? x); simpl; now rewrite IH.
Qed.

Lemma object_area_gmap (f : Z -> Z) (l : Z) (g : iarray) :
  (forall x, (l =? f x) = (l =? x)) ->
  object_area (gmap f g) l = object_area g l.
Proof.
  intros H. unfold object_area, flatten, gmap.
  rewrite <- concat_map. now apply count_eq_map.
Qed.

(** Filtering a label map on size a second time changes nothing: the
    objects that are left keep their areas, and both returned maps are the
    filtered map. *)
Theorem filter_on_size_idempotent (self : settings) (labeled_image : iarray)
        (object_count : Z) (filtered small_removed : iarray) :
  (forall r c l, pixel labeled_image r c = Some l -> 0 <= l <= object_count) ->
  outcome (filter_on_size self labeled_image object_count)
  = Ok (filtered, small_removed) ->
  filter_on_size self filtered object_count = ([], Ok (filtered, filtered)).
Proof.
  intros Hrange H.
  destruct (exclude_size self && (0 <? object_count)) eqn:E.
  - apply andb_true_iff in E. destruct E as [He Hn]. apply Z.ltb_lt in Hn.
    set (small := fun l : Z =>
           if Qltb (inject_Z (object_area labeled_image l))
                   (min_allowed_area self) then 0 else l).
    set (kept := fun l : Z =>
           if Qltb (max_allowed_area self)
                   (inject_Z (object_area labeled_image l))
           then 0 else small l).
    assert (H1 : filter_on_size self labeled_image object_count
                 = ([], Ok (gmap kept labeled_image, gmap small labeled_image)))
      by (apply filter_on_size_enabled; assumption).
    rewrite H1 in H. cbn [outcome snd] in H.
    assert (Hf : filtered = gmap kept labeled_image) by congruence.
    clear H H1. subst filtered.
    assert (Hk : forall x, kept x = 0 \/ kept x = x).
    { intros x. unfold kept, small.
      destruct (Qltb (max_allowed_area self) _); [now left|].
      destruct (Qltb _ (min_allowed_area self)); [now left|now right]. }
    assert (Harea : forall x, x <> 0 -> kept x = x ->
              object_area (gmap kept labeled_image) x
              = object_area labeled_image x).
    { intros x Hx Hkx. apply object_area_gmap. intros y.
      destruct (Z.eqb_spec x y) as [<-|Hne].
      - rewrite Hkx. apply Z.eqb_refl.
      - apply Z.eqb_neq. destruct (Hk y) as [E0|Ey]; congruence. }
    rewrite filter_on_size_enabled; try assumption.
    + rewrite !gmap_gmap. f_equal. f_equal. f_equal.
      * apply gmap_ext. intros x.
        destruct (Z.eq_dec (kept x) 0) as [E0|Hne].
        -- rewrite E0.
           destruct (Qltb (max_allowed_area self) _); [reflexivity|].
           destruct (Qltb _ (min_allowed_area self)); reflexivity.
        -- assert (Hkx : kept x = x) by (destruct (Hk x); congruence).
           rewrite Hkx, Harea by congruence.
           exact Hkx.
      * apply gmap_ext. intros x.
        destruct (Z.eq_dec (kept x) 0) as [E0|Hne].
        -- rewrite E0.
           destruct (Qltb _ (min_allowed_area self)); reflexivity.
        -- assert (Hkx : kept x = x) by (destruct (Hk x); congruence).
           assert (Hx : x <> 0) by congruence.
           rewrite Hkx, Harea by assumption.
           unfold kept in Hkx.
           destruct (Qltb (max_allowed_area self) _); [congruence|].
           exact Hkx.
    + intros r c l Hp. rewrite pixel_gmap in Hp.
      destruct (pixel labeled_image r c) as [u|] eqn:Hu; [|discriminate].
      simpl in Hp. inversion Hp; subst l.
      specialize (Hrange r c u Hu). destruct (Hk u) as [->| ->]; lia.
  - unfold filter_on_size in *. rewrite E in *.
    unfold outcome, ret in H. simpl in H.
    assert (filtered = labeled_image) by congruence. subst filtered.
    reflexivity.
Qed.

Lemma filter_on_size_idempotent_witness :
  filter_on_size (Examples.ring_settings false) [[1; 1; 1; 1; 0]] 2
  = ([], Ok ([[1; 1; 1; 1; 0]], [[1; 1; 1; 1; 0]])).
Proof.
  apply (filter_on_size_idempotent (Examples.ring_settings false)
           Examples.large_and_small 2 [[1; 1; 1; 1; 0]] [[1; 1; 1; 1; 0]]).
  - apply (within_countb_sound Examples.large_and_small 2). reflexivity.
  - vm_compute. reflexivity.
Defined.

(** ** What a run without declumping invokes *)






(** ** Objects and the thresholded image *)

Lemma label_on_foreground (b : barray) (r c : nat) (l : Z) :
  pixel (fst (label b)) r c = Some l -> l <> 0 ->
  at_or false b (Z.of_nat r) (Z.of_nat c) = true.
Proof.
  unfold label. cbn [fst]. intros H Hl.
  apply pixel_tabulate_inv in H. destruct H as (_ & _ & ->).
  destruct (at_or false b (Z.of_nat r) (Z.of_nat c)); congruence.
Qed.

Lemma at_or_true (b : barray) (r c : nat) :
  at_or false b (Z.of_nat r) (Z.of_nat c) = true -> pixel b r c = Some true.
Proof.
  unfold at_or.
  destruct (Z.ltb_spec (Z.of_nat r) 0); [lia|].
  destruct (Z.ltb_spec (Z.of_nat c) 0); [lia|].
  simpl. rewrite !Nat2Z.id.
  destruct (pixel b r c) as [[|]|]; congruence.
Qed.

(** Without hole filling and without declumping, every pixel of an object
    of the unedited map is a valid pixel of the mask at which the smoothed
    image reaches the local threshold. *)
Theorem objects_lie_on_thresholded_mask (K : Kernels) (self : settings)
        (image : cpimage) (local_threshold : farray) (global_threshold : Q)
        (seg : segmentation) (r c : nat) (l : Z) :
  fill_holes self = false ->
  unclump_method self = UN_NONE \/ watershed_method self = WA_NONE ->
  outcome (run K self image local_threshold global_threshold) = Ok seg ->
  pixel (unedited_segmented seg) r c = Some l -> l <> 0 ->
  pixel (mask image) r c = Some true
  /\ exists b t,
      pixel (smooth_image K self (pixel_data image) (mask image) 1) r c = Some b
      /\ pixel local_threshold r c = Some t
      /\ (t <= b)%Q.
Proof.
  intros Hfill Hnone H Hp Hl. unfold run in H.
  apply bind_Ok in H. destruct H as (blurred & Hb & H).
  apply bind_Ok in H. destruct H as ([lab0 n0] & Hlab & H).
  apply bind_Ok in H. destruct H as (lab1 & Hfilled & H).
  apply bind_Ok in H. destruct H as ([[lab2 n2] mss] & Hsep & H).
  apply filter_and_relabel_unedited in H. rewrite H in Hp. clear H.
  assert (Eb : blurred = smooth_image K self (pixel_data image) (mask image) 1).
  { unfold running, outcome in Hb. simpl in Hb. congruence. }
  subst blurred.
  unfold fill_if_wanted in Hfilled. rewrite Hfill in Hfilled.
  assert (lab1 = lab0) by (unfold ret, outcome in Hfilled; simpl in Hfilled; congruence).
  subst lab1.
  assert (E2 : lab2 = lab0).
  { unfold separate_neighboring_objects in Hsep.
    destruct Hnone as [Hn|Hn]; rewrite Hn in Hsep.
    - unfold ret, outcome in Hsep. simpl in Hsep. congruence.
    - change ((WA_NONE =? WA_NONE)%string) with true in Hsep.
      rewrite orb_true_r in Hsep.
      unfold ret, outcome in Hsep. simpl in Hsep. congruence. }
  subst lab2.
  unfold running, outcome in Hlab. cbn [snd] in Hlab.
  match type of Hlab with
  | Ok (label ?b) = _ =>
      assert (E0 : lab0 = fst (label b))
        by (assert (label b = (lab0, n0)) as -> by congruence; reflexivity)
  end.
  rewrite E0 in Hp.
  apply label_on_foreground in Hp; [|assumption].
  apply at_or_true in Hp.
  rewrite !pixel_gmap2 in Hp.
  destruct (pixel (smooth_image K self (pixel_data image) (mask image) 1) r c)
    as [b|]; [|discriminate].
  destruct (pixel local_threshold r c) as [t|]; [|discriminate].
  destruct (pixel (mask image) r c) as [m|]; [|discriminate].
  inversion Hp as [Hand]. apply andb_true_iff in Hand.
  destruct Hand as [Hle ->]. rewrite Hle.
  split; [reflexivity|].
  exists b, t. repeat apply conj; try reflexivity.
  now apply Qle_bool_iff.
Qed.

Lemma objects_lie_on_thresholded_mask_witness :
  pixel (mask Examples.ring_image) 2 2 = Some true
  /\ exists b t,
      pixel (smooth_image Examples.plain_kernels (Examples.ring_settings false)
                          (pixel_data Examples.ring_image)
                          (mask Examples.ring_image) 1) 2 2 = Some b
      /\ pixel Examples.half_5x5 2 2 = Some t
      /\ (t <= b)%Q.
Proof.
  apply (objects_lie_on_thresholded_mask Examples.plain_kernels
           (Examples.ring_settings false) Examples.ring_image
           Examples.half_5x5 0.5%Q Examples.ring_result 2 2 2).
  - reflexivity.
  - left. reflexivity.
  - vm_compute. reflexivity.
  - reflexivity.
  - discriminate.
Defined.
